(** * StarBase variable model (src/Sys/SysModModel.cpp)

    A shallow embedding of the [Variable] accessor and of the [SysModModel]
    tree operations, and the properties of the specification proved (or
    refuted) on it.

    The model document is an ArduinoJson document.  A [JsonVariant] is
    embedded as the inductive type [Json]; a [JsonObject] is the ordered list
    of its key/value pairs (ArduinoJson keeps members in insertion order and
    looks a key up by a linear scan that stops at the first match).
    Floating-point numbers are left out of the embedding. *)

From Stdlib Require Import ZArith String List Bool Lia.
From stdpp Require Import base option list gmap strings pretty.

Open Scope string_scope.
Open Scope Z_scope.

(** ** JSON values *)

#[warnings="-register-all"]
Inductive Json :=
| JNull
| JBool (b : bool)
| JInt (z : Z)
| JStr (s : string)
| JArr (elements : list Json)
| JObj (members : list (string * Json)).

Abbreviation JsonObject := (list (string * Json)).
(** A [JsonString] may be null (its [c_str()] is then the null pointer). *)
Abbreviation JsonString := (option string).

Definition isNull (j : Json) : bool :=
  match j with JNull => true | _ => false end.

Definition isArray (j : Json) : bool :=
  match j with JArr _ => true | _ => false end.

Definition isObject (j : Json) : bool :=
  match j with JObj _ => true | _ => false end.

(** [variant == "text"]: true for a string variant with that content. *)
Definition eqStr (j : Json) (s : string) : bool :=
  match j with JStr t => String.eqb t s | _ => false end.

(** [var[key]]: the first member with that key, null when there is none. *)
Fixpoint member (key : string) (obj : JsonObject) : Json :=
  match obj with
  | [] => JNull
  | (k, v) :: rest => if String.eqb k key then v else member key rest
  end.

(** [var[key] = v]: replaces the member in place, or appends it. *)
Fixpoint setMember (key : string) (v : Json) (obj : JsonObject) : JsonObject :=
  match obj with
  | [] => [(key, v)]
  | (k, w) :: rest =>
      if String.eqb k key then (k, v) :: rest else (k, w) :: setMember key v rest
  end.

(** [var.remove(key)] *)
Fixpoint removeMember (key : string) (obj : JsonObject) : JsonObject :=
  match obj with
  | [] => []
  | (k, w) :: rest =>
      if String.eqb k key then rest else (k, w) :: removeMember key rest
  end.

Section AlterMember.
Variable key : string.
Variable f : Json -> Json.

(** Runs [f] on the member found under [key], in place. *)
Fixpoint alterMember (obj : JsonObject) : JsonObject :=
  match obj with
  | [] => []
  | (k, w) :: rest =>
      if String.eqb k key then (k, f w) :: rest else (k, w) :: alterMember rest
  end.
End AlterMember.

Section OnMember.
Context {A : Type}.
Variable key : string.
Variable f : Json -> A.
Variable absent : A.

(** [f] of the member found under [key], [absent] when there is none. *)
Fixpoint onMember (obj : JsonObject) : A :=
  match obj with
  | [] => absent
  | (k, w) :: rest => if String.eqb k key then f w else onMember rest
  end.
End OnMember.

(** [array[i]]: null outside the array and on anything that is no array. *)
Definition element (j : Json) (i : Z) : Json :=
  match j with
  | JArr l => if i <? 0 then JNull else default JNull (l !! Z.to_nat i)
  | _ => JNull
  end.

(** [array.size()] *)
Definition size (j : Json) : Z :=
  match j with JArr l => Z.of_nat (length l) | _ => 0 end.

(** ** Conversions of a variant ([as<T>()], ArduinoJson)

    An integral [T] reads a Boolean as 0 or 1, an integer that fits [T] as
    itself and one that does not as 0, a string through the library's number
    parser ([parseNumber] below), and anything else as 0.  [bool] reads null
    as false, a Boolean as itself, a number as "not 0", anything else as
    true.  A [JsonString] is null unless the variant is a string. *)

Definition UINT8_MAX : Z := 255.
Definition UINT16_MAX : Z := 65535.
Definition INT_MIN : Z := - 2 ^ 31.
Definition INT_MAX : Z := 2 ^ 31 - 1.
Definition SIZE_MAX : Z := 2 ^ 32 - 1.

Definition convertNumber (lo hi z : Z) : Z :=
  if (lo <=? z) && (z <=? hi) then z else 0.

Definition asJsonString (j : Json) : JsonString :=
  match j with JStr s => Some s | _ => None end.

Definition asBool (j : Json) : bool :=
  match j with
  | JNull => false
  | JBool b => b
  | JInt z => negb (z =? 0)
  | _ => true
  end.

(** ** What the sources use but do not define

    [parseNumber] is ArduinoJson's number parser; [asCoord3D] the converter
    from a variant to a [Coord3D] and [VectorString_capacity] the number of
    characters a [VectorString] holds ([sizeof(VectorString().s) - 1]), both
    of SysModModel.h; [fFormat_pidid] is [print->fFormat] on the format
    ["%s.%s"] with a buffer of 64 bytes; [oPos_default] and [ro_default] are
    the default arguments in the declaration of [cleanUpModel]. *)

Record Coord3D := mkCoord3D { coord_x : Z; coord_y : Z; coord_z : Z }.

Record Extern := mkExtern {
  parseNumber : string -> Z;
  asCoord3D : Json -> Coord3D;
  VectorString_capacity : nat;
  fFormat_pidid : JsonString -> JsonString -> string;
  oPos_default : bool;
  ro_default : bool
}.

(** The instance the examples run on: strings that hold no number, a
    [VectorString] of 32 bytes, the format written out, and the sweep after
    the declarations in its [oPos] mode. *)
Definition example_extern : Extern :=
  mkExtern (fun _ => 0) (fun _ => mkCoord3D 0 0 0) 31
    (fun pid id => String.append (default EmptyString pid) (String.append "." (default EmptyString id)))
    true false.

Section Model.

Variable ext : Extern.

Definition asIntegral (lo hi : Z) (j : Json) : Z :=
  match j with
  | JBool b => if b then 1 else 0
  | JInt z => convertNumber lo hi z
  | JStr s => convertNumber lo hi (parseNumber ext s)
  | _ => 0
  end.

Definition asInt : Json -> Z := asIntegral INT_MIN INT_MAX.
Definition asSize : Json -> Z := asIntegral 0 SIZE_MAX.
Definition asUint8 : Json -> Z := asIntegral 0 UINT8_MAX.
Definition asUint16 : Json -> Z := asIntegral 0 UINT16_MAX.

(** ** The accessors of [Variable] (declared in SysModModel.h)

    A [Variable] wraps one [JsonObject] of the model, [var].  The accessors
    read and write its members: "o" the order, "n" the children, "value",
    "ro".  The order is an [int]. *)

(** [-order] on an [int].  [INT_MIN] has no positive counterpart: the
    negation overflows there (undefined in the source) and leaves, in two's
    complement, [INT_MIN] itself.  The statements on the orders leave that
    one order out. *)
Definition negate (z : Z) : Z := if z =? INT_MIN then INT_MIN else - z.

Definition order (var : JsonObject) : Z := asInt (member "o" var).
Definition setOrder (value : Z) (var : JsonObject) : JsonObject :=
  setMember "o" (JInt value) var.
Definition readOnly (var : JsonObject) : bool := asBool (member "ro" var).
Definition value (var : JsonObject) : Json := member "value" var.
Definition valueRow (var : JsonObject) (rowNr : Z) : Json :=
  element (member "value" var) rowNr.
(** [children()] and [valArray()] are [JsonArray]s: null unless the member
    is an array. *)
Definition children (var : JsonObject) : Json :=
  if isArray (member "n" var) then member "n" var else JNull.
Definition valArray (var : JsonObject) : Json :=
  if isArray (member "value" var) then member "value" var else JNull.

(** ** [Variable::rows]

    [fun_] is the visitor, an empty [std::function] being [None]; it acts on
    a state [S] of the caller's.  The loop walks the value array of
    [children()[0]] as it stands on entry; [rowNr] is a [uint8_t] and wraps. *)

(** [children()[0]] as a [JsonObject]: null unless the entry is an object. *)
Definition firstChild (this : JsonObject) : JsonObject :=
  match element (children this) 0 with JObj c => c | _ => [] end.

Section Rows.
Context {S : Type}.
Variable fun_ : option (JsonObject -> Z -> S -> S).

Fixpoint rows_loop (this : JsonObject) (values : list Json) (rowNr : Z) (s : S) : S :=
  match values with
  | [] => s
  | _ :: rest =>
      let s' := match fun_ with Some f => f this rowNr s | None => s end in
      rows_loop this rest ((rowNr + 1) mod 256) s'
  end.

Definition rows (this : JsonObject) (s : S) : S :=
  match valArray (firstChild this) with
  | JArr values => rows_loop this values 0 s
  | _ => s
  end.
End Rows.

(** ** [Variable::preDetails]

    The loop runs over the entries of [children()]; an entry that is no
    object converts to a null [JsonObject], on which the write is lost.
    The order negated here is not below 0: the negation does not overflow. *)

Definition preDetails_child (varChild : Json) : Json :=
  match varChild with
  | JObj child =>
      if 0 <=? order child then JObj (setOrder (- order child) child)
      else varChild
  | _ => varChild
  end.

Definition preDetails (var : JsonObject) : JsonObject :=
  match children var with
  | JArr l => setMember "n" (JArr (map preDetails_child l)) var
  | _ => var
  end.

(** ** [Variable::getValue]

    [getValueRowNr] is [mdl->getValueRowNr], the row context of the process. *)

Definition getValue (getValueRowNr : Z) (var : JsonObject) (rowNr : Z) : Json :=
  if isArray (member "value" var) then
    let valueArray := valArray var in
    let rowNr := if rowNr =? UINT8_MAX then getValueRowNr else rowNr in
    if negb (rowNr =? UINT8_MAX) && (rowNr <? size valueArray) then
      element valueArray rowNr
    else if negb (size valueArray =? 0) then
      element valueArray 0
    else JNull
  else member "value" var.

(** ** [SysModModel::cleanUpModel]

    [vars] is the array the sweep walks, [parentId] the "id" member of the
    parent ([null] at the root).  [showObsolete] is the value of
    [mdl->getValue("Model", "showObsolete")], which the function reads on
    entry through an accessor of the header.

    [vars.remove(varV)] unlinks the entry and clears it: the rest of the
    loop body then sees a null [var], so that neither the value is stripped
    nor the children are visited, and the iterator moves on to the entry
    that followed. *)

Section CleanUp.
Variables (showObsolete oPos ro : bool).

(** Whether the body of the loop removes [var]. *)
Definition removes (var : JsonObject) : bool :=
  if ro then false
  else if oPos then
    (isNull (member "o" var) || (0 <=? order var)) && negb showObsolete
  else
    isNull (member "o" var) || (order var <? 0).

(** The order of a [var] that stays. *)
Definition cleanOrder (var : JsonObject) : JsonObject :=
  if ro then var
  else if oPos then
    if isNull (member "o" var) || (0 <=? order var) then var
    else setOrder (negate (order var)) var
  else var.

(** The value of a [var] that stays. *)
Definition cleanValue (parentId : Json) (var : JsonObject) : JsonObject :=
  if ro && (eqStr parentId "instances" || readOnly var)
  then removeMember "value" var
  else var.

(** The recursive call comes last in the source; it only touches the
    member "n", which the two steps before it neither read nor write, so
    it is applied first here, where the children are a structural part of
    the entry. *)
Fixpoint cleanUpModel (parentId : Json) (vars : Json) {struct vars} : Json :=
  match vars with
  | JArr l =>
      JArr ((fix loop (l : list Json) : list Json :=
               match l with
               | [] => []
               | JObj var :: rest =>
                   if removes var then loop rest
                   else
                     JObj (cleanValue parentId (cleanOrder
                             (alterMember "n" (cleanUpModel (member "id" var)) var)))
                       :: loop rest
               | other :: rest => other :: loop rest
               end) l)
  | _ => vars
  end.
End CleanUp.

(** ** Native storage bound through the member "p"

    A pointer is the [int] stored under "p".  The source casts it to the
    native type its type tag stands for; the memory of the embedding records
    what lives at each address, and a cast to anything else is undefined
    behaviour: the operation has no result ([None]). *)

Inductive NativeType := uint8_t | uint16_t | bool3State | VectorString | Coord3D_t.

#[local] Instance NativeType_eq_dec : EqDecision NativeType.
Proof. solve_decision. Defined.

Inductive NativeValue :=
| NInt (n : Z)
| NChars (s : string)
| NCoord (c : Coord3D).

Inductive Native :=
| Scalar (t : NativeType) (x : NativeValue)
| Vector (t : NativeType) (l : list NativeValue).

Definition vectorAt (t : NativeType) (pointer : Z) (memory : gmap Z Native)
  : option (list NativeValue) :=
  match memory !! pointer with
  | Some (Vector t' l) => if decide (t' = t) then Some l else None
  | _ => None
  end.

Definition scalarAt (t : NativeType) (pointer : Z) (memory : gmap Z Native)
  : option NativeValue :=
  match memory !! pointer with
  | Some (Scalar t' x) => if decide (t' = t) then Some x else None
  | _ => None
  end.

(** The native type of a row-array binding, by type tag. *)
Definition vectorType (type : Json) : option NativeType :=
  if eqStr type "select" || eqStr type "range" || eqStr type "pin" then Some uint8_t
  else if eqStr type "number" then Some uint16_t
  else if eqStr type "checkbox" then Some bool3State
  else if eqStr type "text" || eqStr type "fileEdit" then Some VectorString
  else if eqStr type "coord3D" then Some Coord3D_t
  else None.

(** The native type of a scalar binding, by type tag (no text here). *)
Definition scalarType (type : Json) : option NativeType :=
  if eqStr type "select" || eqStr type "range" || eqStr type "pin" then Some uint8_t
  else if eqStr type "number" then Some uint16_t
  else if eqStr type "checkbox" then Some bool3State
  else if eqStr type "coord3D" then Some Coord3D_t
  else None.

(** What [push_back] fills a new slot with. *)
Definition sentinel (t : NativeType) : NativeValue :=
  match t with
  | uint8_t => NInt UINT8_MAX
  | uint16_t => NInt UINT16_MAX
  | bool3State => NInt UINT8_MAX
  | VectorString => NChars EmptyString
  | Coord3D_t => NCoord (mkCoord3D (-1) (-1) (-1))
  end.

(** [strlcpy(dst, src, capacity + 1)]: undefined on a null source. *)
Definition strlcpy (capacity : nat) (src : JsonString) : option string :=
  (fun s => String.substring 0 capacity s) <$> src.

(** The native value a variant is stored as ([bool3State] is an unsigned
    byte).  A text is copied with [strlcpy] from [value.as<const char *>()],
    which is null unless the variant is a string. *)
Definition toNative (t : NativeType) (value : Json) : option NativeValue :=
  match t with
  | uint8_t => Some (NInt (asUint8 value))
  | uint16_t => Some (NInt (asUint16 value))
  | bool3State => Some (NInt (asUint8 value))
  | VectorString => NChars <$> strlcpy (VectorString_capacity ext) (asJsonString value)
  | Coord3D_t => Some (NCoord (asCoord3D ext value))
  end.

(** [while (rowNr >= v.size()) v.push_back(filler)] *)
Definition grow (rowNr : Z) (filler : NativeValue) (l : list NativeValue)
  : list NativeValue :=
  l ++ replicate (Z.to_nat (rowNr + 1) - length l)%nat filler.

(** [if (rowNr < v.size()) v.erase(v.begin() + rowNr)] *)
Definition erase (rowNr : Z) (l : list NativeValue) : list NativeValue :=
  if rowNr <? Z.of_nat (length l) then delete (Z.to_nat rowNr) l else l.

(** ** The state the dispatcher works on

    A [Var] is the handle of the [JsonObject] a [Variable] wraps; [objects]
    gives the members the handle refers to (none for a null handle). *)

Definition Var : Type := nat.

Record State := mkState {
  objects : Var -> JsonObject;        (* the model document *)
  memory : gmap Z Native;             (* native storage *)
  responseObject : JsonObject;        (* web->getResponseObject() *)
  changedVarsQueue : list Var         (* instances->changedVarsQueue *)
}.

Definition setMemory (m : gmap Z Native) (st : State) : State :=
  mkState (objects st) m (responseObject st) (changedVarsQueue st).
Definition setResponse (r : JsonObject) (st : State) : State :=
  mkState (objects st) (memory st) r (changedVarsQueue st).
Definition push_back (v : Var) (st : State) : State :=
  mkState (objects st) (memory st) (responseObject st) (changedVarsQueue st ++ [v]).

Inductive EventType := onSetValue | onUI | onChange | onLoop1s | onAdd | onDelete.

#[local] Instance EventType_eq_dec : EqDecision EventType.
Proof. solve_decision. Defined.

(** A handler of [mdl->varEvents]: called with the variable, the row and
    the event, it returns the "effect applied" flag. *)
Definition VarEvent := Var -> Z -> EventType -> State -> State * bool.

(** [variant[key]]: null unless the variant is an object. *)
Definition memberOf (key : string) (j : Json) : Json :=
  match j with JObj m => member key m | _ => JNull end.

(** [object[key1][key2] = v]: the inner object is created when the member
    is null, and the write is lost when the member is something else. *)
Definition setMember2 (key1 key2 : string) (v : Json) (obj : JsonObject) : JsonObject :=
  match member key1 obj with
  | JNull => setMember key1 (JObj [(key2, v)]) obj
  | JObj inner => setMember key1 (JObj (setMember key2 v inner)) obj
  | _ => obj
  end.

(** [object[key1].remove(key2)] *)
Definition removeMember2 (key1 key2 : string) (obj : JsonObject) : JsonObject :=
  match member key1 obj with
  | JObj inner => setMember key1 (JObj (removeMember key2 inner)) obj
  | _ => obj
  end.

(** The pointer of a binding: "p" itself, or its entry for the row. *)
Definition pointerOf (var : JsonObject) (rowNr : Z) : Z :=
  if isArray (member "p" var) then asInt (element (member "p" var) rowNr)
  else asInt (member "p" var).

Section Dispatch.
Variable varEvents : list VarEvent.

(** *** [Variable::triggerEvent], lines 135-233: an [onChange] event *)

Definition syncPointer (v : Var) (rowNr : Z) (st : State) : option State :=
  let var := objects st v in
  if isNull (member "p" var) then Some st
  else
    let value := if rowNr =? UINT8_MAX then value var else valueRow var rowNr in
    let isPointerArray := isArray (member "p" var) in
    let pointer := pointerOf var rowNr in
    if pointer =? 0 then Some st
    else if isArray (member "value" var) && negb isPointerArray then
      if negb (rowNr =? UINT8_MAX) then
        match vectorType (member "type" var) with
        | Some t =>
            l ← vectorAt t pointer (memory st);
            x ← toNative t value;
            Some (setMemory
                    (<[pointer := Vector t (<[Z.to_nat rowNr := x]> (grow rowNr (sentinel t) l))]>
                       (memory st)) st)
        | None => Some st
        end
      else Some st
    else
      match scalarType (member "type" var) with
      | Some t =>
          _ ← scalarAt t pointer (memory st);
          x ← toNative t value;
          Some (setMemory (<[pointer := Scalar t x]> (memory st)) st)
      | None => Some st
      end.

Definition changeStep (v : Var) (eventType : EventType) (rowNr : Z) (init : bool)
    (st : State) : option State :=
  if decide (eventType = onChange) then
    let st1 :=
      if negb init && negb (isNull (member "dash" (objects st v)))
      then push_back v st else st in
    syncPointer v rowNr st1
  else Some st.

(** *** lines 235-262: the handler *)

Definition callVarEvent (v : Var) (eventType : EventType) (rowNr : Z) (st : State)
  : State * bool :=
  let var := objects st v in
  if negb (isNull (member "fun" var)) then
    let funNr := asSize (member "fun" var) in
    if funNr <? Z.of_nat (length varEvents) then
      match varEvents !! Z.to_nat funNr with
      | Some varEvent => varEvent v rowNr eventType st
      | None => (st, false)
      end
    else (st, false)
  else (st, false).

(** *** lines 265-311: rows added and deleted *)

Fixpoint eraseRows (columns : list Json) (rowNr : Z) (memory : gmap Z Native)
  : option (gmap Z Native) :=
  match columns with
  | [] => Some memory
  | childVar :: rest =>
      let childVar := match childVar with JObj c => c | _ => [] end in
      let pointer := pointerOf childVar rowNr in
      memory' ←
        (if pointer =? 0 then Some memory
         else
           match vectorType (member "type" childVar) with
           | Some t =>
               l ← vectorAt t pointer memory;
               Some (<[pointer := Vector t (erase rowNr l)]> memory)
           | None => Some memory
           end);
      eraseRows rest rowNr memory'
  end.

Definition addDeleteStep (v : Var) (eventType : EventType) (rowNr : Z) (st : State)
  : option State :=
  if decide (eventType = onAdd \/ eventType = onDelete) then
    st1 ←
      (if decide (eventType = onDelete) then
         match children (objects st v) with
         | JArr columns =>
             (fun m => setMemory m st) <$> eraseRows columns rowNr (memory st)
         | _ => Some st
         end
       else Some st);
    Some (setResponse
            (setMember2 (if decide (eventType = onAdd) then "onAdd" else "onDelete")
               "rowNr" (JInt rowNr) (responseObject st1)) st1)
  else Some st.

(** *** The whole of [triggerEvent]

    [self] stands for the call of the function on itself in its last
    statement, [triggerEvent(onSetValue, rowNr)]; the flag [init] is left to
    its default there, and an [onSetValue] event does not read it. *)

Definition triggerEvent_body
    (self : Var -> EventType -> Z -> bool -> State -> option (State * bool))
    (v : Var) (eventType : EventType) (rowNr : Z) (init : bool) (st : State)
  : option (State * bool) :=
  st1 ← changeStep v eventType rowNr init st;
  let '(st2, result) := callVarEvent v eventType rowNr st1 in
  st3 ← addDeleteStep v eventType rowNr st2;
  st4 ←
    (if bool_decide (eventType = onUI) && readOnly (objects st3 v)
     then fst <$> self v onSetValue rowNr false st3
     else Some st3);
  Some (st4, result).

(** The inner call is for [onSetValue], which calls no further: two
    unfoldings of the body are the function ([triggerEvent_unfold]). *)
Definition triggerEvent : Var -> EventType -> Z -> bool -> State -> option (State * bool) :=
  triggerEvent_body (triggerEvent_body (fun _ _ _ _ _ => None)).

(** ** The options of a select (lines 334-386) *)

Definition pidid (var : JsonObject) : string :=
  fFormat_pidid ext (asJsonString (member "pid" var)) (asJsonString (member "id" var)).

Definition optionsOf (v : Var) (st : State) : Json :=
  memberOf "options" (member (pidid (objects st v)) (responseObject st)).

(** A variant taken as a [JsonArray]: null unless it is an array. *)
Definition asJsonArray (j : Json) : Json :=
  if isArray j then j else JNull.

(** [triggerEvent(onUI)] leaves the row and the initialisation flag to the
    defaults of the declaration: no row, no initialisation.  The options
    are returned as a [JsonArray]. *)
Definition getOptions (v : Var) (st : State) : option (State * Json) :=
  '(st1, _) ← triggerEvent v onUI UINT8_MAX false st;
  Some (st1, asJsonArray (optionsOf v st1)).

Definition clearOptions (v : Var) (st : State) : State :=
  setResponse (removeMember2 (pidid (objects st v)) "options" (responseObject st)) st.

End Dispatch.

(** [findOptionsTextRec]: [startValue], [groupName] and [optionName] are the
    three cells the function is handed pointers to. *)
Record Lookup := mkLookup {
  startValue : Z;
  groupName : JsonString;
  optionName : JsonString
}.

Fixpoint findOptionsTextRec (options : Json) (value : Z) (parentGroup : JsonString)
    (cells : Lookup) {struct options} : bool * Lookup :=
  match options with
  | JArr l =>
      (fix each (l : list Json) (cells : Lookup) : bool * Lookup :=
         match l with
         | [] => (false, cells)
         | option :: rest =>
             let '(found, cells') := findOptionsTextRec option value parentGroup cells in
             if found then (true, cells') else each rest cells'
         end) l cells
  | JObj pairs =>
      (fix each (l : list (string * Json)) (cells : Lookup) : bool * Lookup :=
         match l with
         | [] => (false, cells)
         | (key, item) :: rest =>
             let '(found, cells') :=
               findOptionsTextRec item value
                 (match parentGroup with None => Some key | Some _ => parentGroup end)
                 cells in
             if found then (true, cells') else each rest cells'
         end) pairs cells
  | _ =>
      if startValue cells =? value then
        (true, mkLookup (startValue cells) parentGroup (asJsonString options))
      else
        (false, mkLookup ((startValue cells + 1) mod 256) (groupName cells) (optionName cells))
  end.

(** [findOptionsText]: the two texts are copied into buffers of 32 bytes. *)
Definition findOptionsText (varEvents : list VarEvent) (v : Var) (value : Z) (st : State)
  : option (State * string * string) :=
  let optionsExisted := negb (isNull (optionsOf v st)) in
  '(st1, options) ← getOptions varEvents v st;
  let '(_, cells) := findOptionsTextRec options value None (mkLookup 0 None None) in
  group ← strlcpy 31 (groupName cells);
  option ← strlcpy 31 (optionName cells);
  Some (if optionsExisted then st1 else clearOptions v st1, group, option).

(** ** Saving the model ([SysModModel::loop20ms]) *)

(** Modelled from the spec: [StarJson::addExclusion] and
    [StarJson::writeJsonDocToFile] (SysStarJson.h) are not among the sources.
    The snapshot is "an ordered sequence of nodes mirroring the Data Model,
    with a caller-specified exclusion set applied before writing": every
    node, at every depth, is written without the members whose key is
    excluded.  The result is the document the file holds. *)
Fixpoint writeJsonDocToFile (exclusions : list string) (doc : Json) {struct doc} : Json :=
  match doc with
  | JArr l =>
      JArr ((fix nodes (l : list Json) : list Json :=
               match l with
               | [] => []
               | JObj var :: rest =>
                   JObj ((fix members (m : list (string * Json)) : list (string * Json) :=
                            match m with
                            | [] => []
                            | (k, w) :: m' =>
                                if bool_decide (k ∈ exclusions) then members m'
                                else if String.eqb k "n"
                                     then (k, writeJsonDocToFile exclusions w) :: members m'
                                     else (k, w) :: members m'
                            end) var)
                     :: nodes rest
               | other :: rest => other :: nodes rest
               end) l)
  | _ => doc
  end.

(** The exclusions [loop20ms] adds before it writes. *)
Definition exclusions : list string := ["fun"; "dash"; "o"; "p"; "oldValue"].

Record SysModModel := mkSysModModel {
  model : Json;                    (* the document, an array of variables *)
  cleanUpModelDone : bool;
  doWriteModel : bool;
  modelFile : option Json          (* what /model.json holds, once written *)
}.

(** [showObsolete] is what [mdl->getValue("Model", "showObsolete")] gives. *)
Definition loop20ms (showObsolete : bool) (mdl : SysModModel) : SysModModel :=
  let mdl1 :=
    if negb (cleanUpModelDone mdl) then
      mkSysModModel
        (cleanUpModel showObsolete (oPos_default ext) (ro_default ext) JNull (model mdl))
        true (doWriteModel mdl) (modelFile mdl)
    else mdl in
  if doWriteModel mdl1 then
    let model' := cleanUpModel showObsolete false true JNull (model mdl1) in
    mkSysModModel model' (cleanUpModelDone mdl1) false
      (Some (writeJsonDocToFile exclusions model'))
  else mdl1.

(** ** [Variable::removeValuesForRow]

    [valArray.remove(rowNr)] takes the entry at [rowNr] out of the array and
    does nothing when there is none.  The function goes on into a child
    only when that child has an array value. *)

Definition removeElement (rowNr : Z) (array : Json) : Json :=
  match array with
  | JArr l => JArr (delete (Z.to_nat rowNr) l)
  | _ => array
  end.

(** The loop over [children()], on the array of the children.  The call on
    the child touches its member "n" only and the removal its member
    "value" only; the call is applied first here, where the children are a
    structural part of the child. *)
Fixpoint removeValuesForRow_children (rowNr : Z) (vars : Json) {struct vars} : Json :=
  match vars with
  | JArr l =>
      JArr (map (fun childVar =>
                   match childVar with
                   | JObj child =>
                       if isArray (member "value" child) then
                         JObj (alterMember "value" (removeElement rowNr)
                                 (alterMember "n" (removeValuesForRow_children rowNr)
                                    child))
                       else childVar
                   | _ => childVar
                   end) l)
  | _ => vars
  end.

Definition removeValuesForRow (rowNr : Z) (var : JsonObject) : JsonObject :=
  alterMember "n" (removeValuesForRow_children rowNr) var.

(** ** [Variable::postDetails]

    [valArray[rowNr] = 0], a null [char] pointer, makes the entry null,
    after filling the
    array with null entries up to [rowNr] when it is shorter.
    [children().remove(childVarIt)] takes the child out and the loop goes
    on with the child that followed, as in [cleanUpModel]. *)

Definition setNull (rowNr : Z) (array : Json) : Json :=
  match array with
  | JArr l =>
      JArr (<[Z.to_nat rowNr := JNull]>
              (l ++ replicate (Z.to_nat (rowNr + 1) - length l)%nat JNull)%list)
  | _ => array
  end.

Definition allNull (array : Json) : bool :=
  match array with
  | JArr l => forallb isNull l
  | _ => true
  end.

(** The body of the loop for one child: the child as it is left, if it is
    not removed, and the response object. *)
Definition postDetails_child (rowNr : Z) (childVar : Json) (response : JsonObject)
  : option Json * JsonObject :=
  match childVar with
  | JObj child =>
      if isArray (member "value" child) then
        if negb (rowNr =? UINT8_MAX) then
          let child1 :=
            if order child <? 0
            then setOrder (negate (order child))
                   (alterMember "value" (setNull rowNr) child)
            else child in
          (if allNull (member "value" child1) then None else Some (JObj child1),
           setMember2 "details" "rowNr" (JInt rowNr) response)
        else (Some childVar, response)
      else
        if order child <? 0 then (None, response) else (Some childVar, response)
  | _ => (Some childVar, response)
  end.

Fixpoint postDetails_loop (rowNr : Z) (l : list Json) (response : JsonObject)
  : list Json * JsonObject :=
  match l with
  | [] => ([], response)
  | childVar :: rest =>
      let '(kept, response1) := postDetails_child rowNr childVar response in
      let '(rest', response2) := postDetails_loop rowNr rest response1 in
      (match kept with Some c => c :: rest' | None => rest' end, response2)
  end.

(** The node as it is left and the response object, which gets a copy of
    the node under "details" / "var". *)
Definition postDetails (rowNr : Z) (var : JsonObject) (response : JsonObject)
  : JsonObject * JsonObject :=
  let '(var', response1) :=
    if 0 <=? order var then
      match children var with
      | JArr l =>
          let '(l', response1) := postDetails_loop rowNr l response in
          (setMember "n" (JArr l') var, response1)
      | _ => (var, response)
      end
    else (var, response) in
  (var', setMember2 "details" "var" (JObj var') response1).

(** ** [SysModModel::walkThroughModel], [SysModModel::findVar]

    [root] is the array the function walks: the model, or the member "n" of
    the parent.  An entry of the array that is no object is seen as a null
    [JsonObject].  The visitor acts on a state [S] of the caller's and
    answers whether to stop; the tree is taken as it stands on entry. *)

Definition asJsonObject (v : Json) : Json :=
  match v with JObj _ => v | _ => JNull end.

Section Walk.
Context {S : Type}.
Variable fun_ : Json -> S -> S * bool.

Fixpoint walkThroughModel (root : Json) (s : S) {struct root} : S * bool :=
  match root with
  | JArr l =>
      (fix loop (l : list Json) (s : S) : S * bool :=
         match l with
         | [] => (s, false)
         | v :: rest =>
             let '(s1, stop) := fun_ (asJsonObject v) s in
             if stop then (s1, true)
             else
               let '(s2, stop2) :=
                 match v with
                 | JObj var =>
                     if negb (isNull (member "n" var))
                     then onMember "n" (fun n => walkThroughModel n s1) (s1, false) var
                     else (s1, false)
                 | _ => (s1, false)
                 end in
               if stop2 then (s2, true) else loop rest s2
         end) l s
  | _ => (s, false)
  end.
End Walk.

Fixpoint findVar (pid id : string) (root : Json) {struct root} : Json :=
  match root with
  | JArr l =>
      (fix loop (l : list Json) : Json :=
         match l with
         | [] => JNull
         | JObj var :: rest =>
             if eqStr (member "pid" var) pid && eqStr (member "id" var) id then JObj var
             else if negb (isNull (member "n" var)) then
               let foundVar := onMember "n" (findVar pid id) JNull var in
               if negb (isNull foundVar) then foundVar else loop rest
             else loop rest
         | _ :: rest => loop rest
         end) l
  | _ => JNull
  end.

(** ** [Variable::setOptions]

    [responseObject[pidid]["options"].to<JsonArray>()] puts an empty array
    under "options" and hands it out; the handler then adds the options to
    it. *)

Definition setOptions (v : Var) (st : State) : State :=
  setResponse (setMember2 (pidid (objects st v)) "options" (JArr []) (responseObject st)) st.

(** * The reset reasons of the system module (src/Sys/SysModSystem.cpp) *)

(** The enumerators of [esp_reset_reason_t] the sources name. *)
Record esp_reset_reasons := mkResetReasons {
  ESP_RST_UNKNOWN : Z;
  ESP_RST_POWERON : Z;
  ESP_RST_EXT : Z;
  ESP_RST_SW : Z;
  ESP_RST_PANIC : Z;
  ESP_RST_INT_WDT : Z;
  ESP_RST_TASK_WDT : Z;
  ESP_RST_WDT : Z;
  ESP_RST_DEEPSLEEP : Z;
  ESP_RST_BROWNOUT : Z;
  ESP_RST_SDIO : Z
}.

Variable rst : esp_reset_reasons.


(** [options.add(value)]: nothing is added to a null [JsonArray]. *)
Definition add (value : Json) (options : Json) : Json :=
  match options with
  | JArr l => JArr (l ++ [value])%list
  | _ => options
  end.

Definition resetCode2Info (reason : Z) : string :=
  match reason with
  | 1 => "power-on"
  | 2 => "exception"
  | 3 => "SW reset"
  | 12 => "SW restart"
  | 5 => "wakeup"
  | 14 => "restart"
  | 15 => "brown-out"
  | 4 | 6 | 7 | 8 | 9 | 11 | 13 | 16 | 17 => "watchdog"
  | 18 => "super watchdog"
  | 10 => "intrusion"
  | 19 => "glitch"
  | 20 => "EFUSE reset"
  | 21 => "USB UART reset"
  | 22 => "JTAG reset"
  | 23 => "power glitch"
  | 0 => "none"
  | _ => "unknown"
  end.

(** [String(resetCode)] is the decimal text of the number. *)
Definition sysTools_reset2String (resetCode : Z) : string :=
  resetCode2Info resetCode +:+ " (" +:+ pretty resetCode +:+ ")".

Definition addResetReasonsSelect (options : Json) : Json :=
  foldl (fun options value => add value options) options
    [ JStr "NO_MEAN (0)";
      JStr (sysTools_reset2String 1);
      JStr (sysTools_reset2String 2);
      JStr (sysTools_reset2String 3);
      JStr (sysTools_reset2String 4);
      JStr (sysTools_reset2String 5);
      JStr (sysTools_reset2String 6);
      JStr (sysTools_reset2String 7);
      JStr (sysTools_reset2String 8);
      JStr (sysTools_reset2String 9);
      JStr (sysTools_reset2String 10);
      JStr (sysTools_reset2String 11);
      JStr (sysTools_reset2String 12);
      JStr (sysTools_reset2String 13);
      JStr (sysTools_reset2String 14);
      JStr (sysTools_reset2String 15);
      JStr (sysTools_reset2String 16);
      JStr (sysTools_reset2String 17);
      JStr (sysTools_reset2String 18);
      JStr (sysTools_reset2String 19);
      JStr (sysTools_reset2String 20);
      JStr (sysTools_reset2String 21);
      JStr (sysTools_reset2String 22);
      JStr (sysTools_reset2String 23) ].

(** The restart reasons.  [esp_reset_reason_t] is an enumeration of the
    platform; the sources name its enumerators and do not give their
    values, which [rst] stands for (a [switch] has them pairwise distinct).
    [esp_reset_reason_t(reasoncode)] keeps the number. *)

Definition restartCode2Info (reason : Z) : string :=
  if reason =? ESP_RST_UNKNOWN rst then "unknown reason"
  else if reason =? ESP_RST_POWERON rst then "power-on event"
  else if reason =? ESP_RST_EXT rst then "external pin reset"
  else if reason =? ESP_RST_SW rst then "SW restart by esp_restart()"
  else if reason =? ESP_RST_PANIC rst then "SW error - panic or exception"
  else if reason =? ESP_RST_INT_WDT rst then "interrupt watchdog"
  else if reason =? ESP_RST_TASK_WDT rst then "task watchdog"
  else if reason =? ESP_RST_WDT rst then "other watchdog"
  else if reason =? ESP_RST_DEEPSLEEP rst then "exit from deep sleep"
  else if reason =? ESP_RST_BROWNOUT rst then "Brownout Reset"
  else if reason =? ESP_RST_SDIO rst then "Reset over SDIO"
  else "unknown".

Definition sysTools_restart2String (reasoncode : Z) : string :=
  "(" +:+ pretty reasoncode +:+ ") " +:+ restartCode2Info reasoncode.

Definition addRestartReasonsSelect (options : Json) : Json :=
  foldl (fun options value => add value options) options
    [ JStr "(0) ESP_RST_UNKNOWN";
      JStr (sysTools_restart2String 1);
      JStr (sysTools_restart2String 2);
      JStr (sysTools_restart2String 3);
      JStr (sysTools_restart2String 4);
      JStr (sysTools_restart2String 5);
      JStr (sysTools_restart2String 6);
      JStr (sysTools_restart2String 7);
      JStr (sysTools_restart2String 8);
      JStr (sysTools_restart2String 9);
      JStr (sysTools_restart2String 10) ].

(** [sysTools_normal_startup], on the restart code [getRestartReason()]
    reads from the chip. *)
Definition sysTools_normal_startup (restartCode : Z) : bool :=
  (restartCode =? ESP_RST_POWERON rst) || (restartCode =? ESP_RST_SW rst).

(** ** Predicates the statements use *)

(** The variables of the array [root], each followed by the variables under
    it: an entry that is no object counts as a null variable. *)
Fixpoint preorder (root : Json) {struct root} : list Json :=
  match root with
  | JArr l =>
      flat_map (fun v => asJsonObject v ::
                         match v with
                         | JObj var => onMember "n" preorder [] var
                         | _ => []
                         end) l
  | _ => []
  end.

(** A visitor run over a list of variables until it answers to stop. *)
Fixpoint visit {S : Type} (fun_ : Json -> S -> S * bool) (l : list Json) (s : S)
  : S * bool :=
  match l with
  | [] => (s, false)
  | var :: rest =>
      let '(s1, stop) := fun_ var s in
      if stop then (s1, true) else visit fun_ rest s1
  end.

(** The test of [findVar]: [var["pid"] == pid && var["id"] == id]. *)
Definition matches (pid id : string) (var : Json) : bool :=
  eqStr (memberOf "pid" var) pid && eqStr (memberOf "id" var) id.

(** A visitor that stops at the variable looked for and notes it. *)
Definition seek (pid id : string) (var : Json) (found : Json) : Json * bool :=
  if matches pid id var then (var, true) else (found, false).

(** [p] holds of every variable of the array [vars], at every depth. *)
Fixpoint allVars (p : JsonObject -> bool) (vars : Json) {struct vars} : bool :=
  match vars with
  | JArr l =>
      forallb (fun v => match v with
                        | JObj var => p var && onMember "n" (allVars p) true var
                        | _ => true
                        end) l
  | _ => true
  end.

(** The member "o" holds a positive integer. *)
Definition confirmed (var : JsonObject) : bool :=
  match member "o" var with JInt z => 0 <? z | _ => false end.

(** The order is missing or, read as an [int], not below 0: what the sweep
    that follows the declarations takes for obsolete. *)
Definition obsolete (var : JsonObject) : bool :=
  isNull (member "o" var) || (0 <=? order var).

(** The order is missing or below 0: what the specification calls pending. *)
Definition pending (var : JsonObject) : bool :=
  isNull (member "o" var) || (order var <? 0).

(** Every variable of the array reads an order below 0. *)
Definition allPending (vars : Json) : bool :=
  match vars with
  | JArr l => forallb (fun v => match v with JObj c => order c <? 0 | _ => true end) l
  | _ => true
  end.

(** The "id" members of the entries of an array, in order. *)
Definition ids (vars : Json) : list Json :=
  match vars with JArr l => map (memberOf "id") l | _ => [] end.

(** The terminal sweep as the specification words it: the entries whose
    order is missing or below 0 go, unless [showObsolete] is set. *)
Definition claimed_sweep (showObsolete : bool) (vars : Json) : Json :=
  match vars with
  | JArr l =>
      if showObsolete then vars
      else JArr (List.filter (fun v => match v with
                                       | JObj var => negb (pending var)
                                       | _ => true
                                       end) l)
  | _ => vars
  end.

(** A visitor that records the calls it receives. *)
Definition record_call (this : JsonObject) (rowNr : Z) (calls : list (JsonObject * Z))
  : list (JsonObject * Z) :=
  calls ++ [(this, rowNr)].

(** The row count as the specification words it: "the value-array length of
    the first child that has an array value". *)
Definition claimed_rowCount (this : JsonObject) : nat :=
  match children this with
  | JArr l =>
      (fix first (l : list Json) : nat :=
         match l with
         | [] => 0%nat
         | child :: rest =>
             match valArray (match child with JObj c => c | _ => [] end) with
             | JArr values => length values
             | _ => first rest
             end
         end) l
  | _ => 0%nat
  end.

(** The individual options of an options structure in the order the search
    visits them, each with the name of its outermost group (null outside
    any group). *)
Fixpoint optionsList (options : Json) (parentGroup : JsonString) {struct options}
  : list (JsonString * Json) :=
  match options with
  | JArr l => flat_map (fun option => optionsList option parentGroup) l
  | JObj pairs =>
      flat_map (fun pair =>
                  optionsList (snd pair)
                    (match parentGroup with None => Some (fst pair) | Some _ => parentGroup end))
        pairs
  | _ => [(parentGroup, options)]
  end.

(** What the search answers when it starts counting at [s]. *)
Definition answer (l : list (JsonString * Json)) (value s : Z) (g o : JsonString)
  : bool * Lookup :=
  match l !! Z.to_nat (value - s) with
  | Some (grp, leaf) => (true, mkLookup value grp (asJsonString leaf))
  | None => (false, mkLookup (s + Z.of_nat (length l)) g o)
  end.

(** A handler leaves the part [proj] of the state as it finds it. *)
Definition preserves {A : Type} (proj : State -> A) (varEvent : VarEvent) : Prop :=
  forall v rowNr eventType st, proj (fst (varEvent v rowNr eventType st)) = proj st.

(** The native sequence a column is bound to for a row, with the type its
    tag stands for: none when the pointer is 0 or the tag is not one of
    those [triggerEvent] knows. *)
Definition columnBinding (rowNr : Z) (childVar : Json) : option (Z * NativeType) :=
  let childVar := match childVar with JObj c => c | _ => [] end in
  let pointer := pointerOf childVar rowNr in
  if pointer =? 0 then None
  else (fun t => (pointer, t)) <$> vectorType (member "type" childVar).

(** What the writer keeps of one variable: the members in order, without
    the excluded ones, the children written in the same way. *)
Definition writeMembers (exclusions : list string) (var : JsonObject) : JsonObject :=
  omap (fun kv : string * Json =>
          if bool_decide (fst kv ∈ exclusions) then None
          else if String.eqb (fst kv) "n"
               then Some (fst kv, writeJsonDocToFile exclusions (snd kv))
               else Some kv) var.

(** What [loop20ms] makes of an array of variables on its way to the file:
    the sweep that strips the values, then the writer with its exclusions. *)
Definition saved (showObsolete : bool) (parentId : Json) (vars : Json) : Json :=
  writeJsonDocToFile exclusions (cleanUpModel showObsolete false true parentId vars).

(** What the sweep ([ro] clear) makes of one variable, [f] standing for the
    sweep of its children: nothing when it removes the variable. *)
Definition sweep_var (showObsolete oPos : bool) (f : Json -> Json) (var : JsonObject)
  : option JsonObject :=
  let var' := alterMember "n" f var in
  if oPos then
    if obsolete var then (if showObsolete then Some var' else None)
    else Some (setOrder (negate (order var)) var')
  else
    if pending var then None else Some var'.

(** One level of the sweep ([ro] clear), entry by entry. *)
Definition sweep_entry (showObsolete oPos : bool) (v : Json) : option Json :=
  match v with
  | JObj var =>
      JObj <$> sweep_var showObsolete oPos
                 (cleanUpModel showObsolete oPos false (member "id" var)) var
  | other => Some other
  end.

(** ** Example inputs *)

Definition var_ (members : JsonObject) : Var -> JsonObject :=
  fun v => match v with O => members | S _ => [] end.

(** A model of two variables: one declared in this run, one not. *)
Definition example_model : Json :=
  JArr [ JObj [("id", JStr "declared"); ("o", JInt (-1))];
         JObj [("id", JStr "restored"); ("o", JInt 2)] ].

(** A variable with two details: the first has a child of its own, the
    second is of order 0. *)
Definition example_details : JsonObject :=
  [ ("id", JStr "fixture");
    ("n", JArr [ JObj [ ("id", JStr "width"); ("o", JInt 2);
                        ("n", JArr [JObj [("id", JStr "unit"); ("o", JInt 3)]]) ];
                 JObj [("id", JStr "height"); ("o", JInt 0)] ]) ].

(** A numeric column bound to an empty native sequence at address 1000. *)
Definition example_column : State :=
  mkState
    (var_ [ ("id", JStr "brightness"); ("type", JStr "number");
            ("value", JArr [JNull; JNull; JNull; JInt 7]); ("p", JInt 1000) ])
    {[ 1000 := Vector uint16_t [] ]} [] [].

(** A table of three rows with two bound columns. *)
Definition example_table : State :=
  mkState
    (var_ [ ("id", JStr "nodes");
            ("n", JArr [ JObj [ ("id", JStr "size"); ("type", JStr "number");
                                ("value", JArr [JInt 10; JInt 11; JInt 12]);
                                ("p", JInt 1000) ];
                         JObj [ ("id", JStr "name"); ("type", JStr "text");
                                ("value", JArr [JStr "a"; JStr "b"; JStr "c"]);
                                ("p", JInt 2000) ] ]) ])
    {[ 1000 := Vector uint16_t [NInt 10; NInt 11; NInt 12];
       2000 := Vector VectorString [NChars "a"; NChars "b"; NChars "c"] ]}
    [] [].

(** A read-only variable with a handler, as the model holds it when it is
    saved. *)
Definition example_saved : SysModModel :=
  mkSysModModel
    (JArr [ JObj [ ("id", JStr "upTime"); ("type", JStr "text"); ("ro", JBool true);
                   ("value", JStr "12s"); ("fun", JInt 3); ("o", JInt 5) ] ])
    true true None.

(** A variable that changes but has no member "dash". *)
Definition example_plain : State :=
  mkState (var_ [ ("id", JStr "on"); ("type", JStr "checkbox"); ("value", JBool true) ])
    ∅ [] [].

(** A read-only variable whose handler index is 5, and a table of one
    handler, which would queue the variable. *)
Definition example_stale : State :=
  mkState (var_ [ ("id", JStr "heap"); ("ro", JBool true); ("fun", JInt 5) ]) ∅ [] [].

Definition example_varEvents : list VarEvent :=
  [ fun v rowNr eventType st => (push_back v st, true) ].

(** A table whose first child is no column of rows. *)
Definition example_rows : JsonObject :=
  [ ("id", JStr "instances");
    ("n", JArr [ JObj [("id", JStr "title"); ("value", JStr "all")];
                 JObj [("id", JStr "name"); ("value", JArr [JStr "a"; JStr "b"; JStr "c"])] ]) ].

(** A select of two options in one group, which its handler lists on
    [onUI]. *)
Definition example_select : State :=
  mkState (var_ [ ("pid", JStr "Fixture"); ("id", JStr "fixture"); ("type", JStr "select");
                  ("value", JInt 5); ("fun", JInt 0) ]) ∅ [] [].

Definition example_onUI : list VarEvent :=
  [ fun v rowNr eventType st =>
      match eventType with
      | onUI =>
          (setResponse
             (setMember2 "Fixture.fixture" "options"
                (JArr [JObj [("Panels", JArr [JStr "16x16"; JStr "32x8"])]])
                (responseObject st)) st, true)
      | _ => (st, false)
      end ].

(** Arrays of values: one null row; 256 rows, the last one apart. *)
Definition example_null_row : JsonObject := [("value", JArr [JNull])].
Definition example_long : JsonObject :=
  [("value", JArr (replicate 255 (JInt 0) ++ [JInt 7]))].

(** A variable with three details: one declared in this pass, one pending,
    and a pending column of two rows. *)
Definition example_pending : JsonObject :=
  [ ("id", JStr "fixture"); ("o", JInt 1);
    ("n", JArr [ JObj [("id", JStr "width"); ("o", JInt 2)];
                 JObj [("id", JStr "height"); ("o", JInt (-3))];
                 JObj [ ("id", JStr "rows"); ("o", JInt (-4));
                        ("value", JArr [JInt 1; JNull]) ] ]) ].

(** A variable with two details without rows, the second one pending. *)
Definition example_scalars : JsonObject :=
  [ ("id", JStr "fixture"); ("o", JInt 1);
    ("n", JArr [ JObj [("id", JStr "width"); ("o", JInt 2)];
                 JObj [("id", JStr "height"); ("o", JInt (-3))] ]) ].

(** A range bound to a single cell at address 3000. *)
Definition example_cell : State :=
  mkState
    (var_ [ ("id", JStr "bri"); ("type", JStr "range"); ("value", JInt 200);
            ("p", JInt 3000) ])
    {[ 3000 := Scalar uint8_t (NInt 0) ]} [] [].

(** A numeric column bound to a native sequence of three entries. *)
Definition example_filled : State :=
  mkState
    (var_ [ ("id", JStr "brightness"); ("type", JStr "number");
            ("value", JArr [JInt 5; JInt 7; JInt 9]); ("p", JInt 1000) ])
    {[ 1000 := Vector uint16_t [NInt 5; NInt 6; NInt 9] ]} [] [].

(** Text columns with a row that holds no text: one whose native sequence
    ends before that row, one whose native sequence has it. *)
Definition example_text_short : State :=
  mkState
    (var_ [ ("id", JStr "name"); ("type", JStr "text");
            ("value", JArr [JStr "a"; JNull]); ("p", JInt 2000) ])
    {[ 2000 := Vector VectorString [NChars "a"] ]} [] [].

Definition example_text_filled : State :=
  mkState
    (var_ [ ("id", JStr "name"); ("type", JStr "text");
            ("value", JArr [JNull; JStr "b"]); ("p", JInt 2000) ])
    {[ 2000 := Vector VectorString [NChars "a"; NChars "b"] ]} [] [].

(** The enumerators numbered in the order the select lists them. *)
Definition example_rst : esp_reset_reasons := mkResetReasons 0 1 2 3 4 5 6 7 8 9 10.

(** * Properties *)

(** Structural induction through arrays and objects. *)
Lemma Json_nested_ind (P : Json -> Prop) :
  P JNull ->
  (forall b, P (JBool b)) ->
  (forall z, P (JInt z)) ->
  (forall s, P (JStr s)) ->
  (forall l, Forall P l -> P (JArr l)) ->
  (forall m, Forall (fun kv => P (snd kv)) m -> P (JObj m)) ->
  forall j, P j.
Proof.
  intros Hnull Hbool Hint Hstr Harr Hobj.
  fix IH 1. intros [ | b | z | s | l | m ].
  - exact Hnull.
  - apply Hbool.
  - apply Hint.
  - apply Hstr.
  - apply Harr. induction l as [ | x l IHl ]; constructor; [ apply IH | exact IHl ].
  - apply Hobj. induction m as [ | [k x] m IHm ]; constructor; [ apply IH | exact IHm ].
Qed.

(** Induction over an array of variables: the members of each entry that is
    an object may be assumed to satisfy the property. *)
Lemma Json_vars_ind (P : Json -> Prop) :
  (forall j, isArray j = false -> P j) ->
  (forall l,
     Forall (fun v => match v with
                      | JObj var => Forall (fun kv => P (snd kv)) var
                      | _ => True
                      end) l -> P (JArr l)) ->
  forall j, P j.
Proof.
  intros Hleaf Harr j.
  cut (P j /\ match j with
              | JObj var => Forall (fun kv => P (snd kv)) var
              | _ => True
              end); [ tauto | ].
  induction j as [ | b | z | s | l IH | m IH ] using Json_nested_ind;
    try (split; [ by apply Hleaf | done ]).
  - split; [ | done ]. apply Harr.
    eapply Forall_impl; [ exact IH | ]. by intros [ | | | | | ] [? ?].
  - split; [ by apply Hleaf | ].
    eapply Forall_impl; [ exact IH | ]. by intros [k w] [? ?].
Qed.


(** ** Members of an object *)

Lemma member_setMember_eq key v obj : member key (setMember key v obj) = v.
Proof.
  induction obj as [ | [k w] obj IH ]; simpl.
  - by rewrite String.eqb_refl.
  - destruct (String.eqb k key) eqn:E; simpl; rewrite E; [ done | exact IH ].
Qed.

Lemma member_setMember_ne key key' v obj :
  key <> key' -> member key' (setMember key v obj) = member key' obj.
Proof.
  intros Hne. induction obj as [ | [k w] obj IH ]; simpl.
  - apply String.eqb_neq in Hne. by rewrite Hne.
  - destruct (String.eqb k key) eqn:E; simpl.
    + apply String.eqb_eq in E. subst k.
      apply String.eqb_neq in Hne. by rewrite Hne.
    + destruct (String.eqb k key'); [ done | exact IH ].
Qed.

Lemma member_alterMember_eq key f obj :
  member key (alterMember key f obj) =
  if bool_decide (key ∈ obj.*1) then f (member key obj) else JNull.
Proof.
  induction obj as [ | [k w] obj IH ]; simpl; [ done | ].
  destruct (String.eqb k key) eqn:E; simpl; rewrite E.
  - apply String.eqb_eq in E. subst k.
    rewrite bool_decide_eq_true_2; [ done | left ].
  - rewrite IH. apply String.eqb_neq in E.
    destruct (bool_decide (key ∈ obj.*1)) eqn:B.
    + apply bool_decide_eq_true_1 in B.
      rewrite bool_decide_eq_true_2; [ done | by right ].
    + apply bool_decide_eq_false_1 in B.
      rewrite bool_decide_eq_false_2; [ done | ].
      intros [ ? | ? ]%elem_of_cons; [ congruence | done ].
Qed.

Lemma member_alterMember_ne key key' f obj :
  key <> key' -> member key' (alterMember key f obj) = member key' obj.
Proof.
  intros Hne. induction obj as [ | [k w] obj IH ]; simpl; [ done | ].
  destruct (String.eqb k key) eqn:E; simpl.
  - apply String.eqb_eq in E. subst k.
    apply String.eqb_neq in Hne. by rewrite Hne.
  - destruct (String.eqb k key'); [ done | exact IH ].
Qed.

Lemma member_removeMember_ne key key' obj :
  key <> key' -> member key' (removeMember key obj) = member key' obj.
Proof.
  intros Hne. induction obj as [ | [k w] obj IH ]; simpl; [ done | ].
  destruct (String.eqb k key) eqn:E; simpl.
  - apply String.eqb_eq in E. subst k.
    apply String.eqb_neq in Hne. by rewrite Hne.
  - destruct (String.eqb k key'); [ done | exact IH ].
Qed.

Lemma member_notin key obj : key ∉ obj.*1 -> member key obj = JNull.
Proof.
  induction obj as [ | [k w] obj IH ]; simpl; [ done | ].
  intros Hn. destruct (String.eqb k key) eqn:E.
  - apply String.eqb_eq in E. subst k. exfalso. apply Hn. left.
  - apply IH. intros ?. apply Hn. by right.
Qed.

Lemma member_removeMember_eq key obj :
  NoDup obj.*1 -> member key (removeMember key obj) = JNull.
Proof.
  induction obj as [ | [k w] obj IH ]; simpl; [ done | ].
  intros [Hk Hnd]%NoDup_cons.
  destruct (String.eqb k key) eqn:E; simpl.
  - apply String.eqb_eq in E. subst k. by apply member_notin.
  - rewrite E. by apply IH.
Qed.

(** ** Conversions *)

Lemma convertNumber_range lo hi z :
  lo <= 0 <= hi -> lo <= convertNumber lo hi z <= hi.
Proof.
  intros H. unfold convertNumber.
  destruct (lo <=? z) eqn:E1; destruct (z <=? hi) eqn:E2; simpl; lia.
Qed.

Lemma asIntegral_range lo hi j :
  lo <= 0 -> 1 <= hi -> lo <= asIntegral lo hi j <= hi.
Proof.
  intros Hlo Hhi. destruct j as [ | [ | ] | z | s | l | m ]; simpl;
    try apply convertNumber_range; lia.
Qed.

Lemma order_range var : INT_MIN <= order var <= INT_MAX.
Proof. apply asIntegral_range; unfold INT_MIN, INT_MAX; lia. Qed.

Lemma order_setOrder z var :
  INT_MIN <= z <= INT_MAX -> order (setOrder z var) = z.
Proof.
  intros H. unfold order, setOrder. rewrite member_setMember_eq. simpl.
  unfold convertNumber.
  destruct (INT_MIN <=? z) eqn:E1; destruct (z <=? INT_MAX) eqn:E2; simpl; lia.
Qed.

(** ** [preDetails] *)

Lemma children_setMember l var : children (setMember "n" (JArr l) var) = JArr l.
Proof. unfold children. by rewrite member_setMember_eq. Qed.

Lemma preDetails_child_order child :
  exists child',
    preDetails_child (JObj child) = JObj child' /\
    order child' = (if 0 <=? order child then - order child else order child) /\
    forall k, k <> "o" -> member k child' = member k child.
Proof.
  unfold preDetails_child. destruct (0 <=? order child) eqn:E.
  - eexists. split; [ reflexivity | ]. split.
    + apply order_setOrder. pose proof (order_range child) as H.
      unfold INT_MIN, INT_MAX in *. lia.
    + intros k Hk. unfold setOrder. by apply member_setMember_ne.
  - exists child. done.
Qed.

(** C2, as amended.  [preDetails] rewrites the direct children of the node
    and nothing else.  A child whose order is positive gets the negated
    order and is pending (its order is below 0) afterwards, its other
    members, its own children among them, being as they were; a child whose
    order is below 0 stays as it is.  The members of the node other than
    "n", and the entries of "n" that are no object, are as they were. *)
Theorem preDetails_negates_children (var : JsonObject) (l : list Json) :
  children var = JArr l ->
  children (preDetails var) = JArr (map preDetails_child l) /\
  (forall k, k <> "n" -> member k (preDetails var) = member k var) /\
  (forall other, other ∈ l -> isObject other = false -> preDetails_child other = other) /\
  forall child, JObj child ∈ l ->
    (0 < order child ->
       exists child',
         preDetails_child (JObj child) = JObj child' /\
         order child' = - order child /\
         order child' < 0 /\
         forall k, k <> "o" -> member k child' = member k child) /\
    (order child < 0 -> preDetails_child (JObj child) = JObj child).
Proof.
  intros Hc. unfold preDetails. rewrite Hc.
  split; [ apply children_setMember | ].
  split; [ intros k Hk; by apply member_setMember_ne | ].
  split; [ by intros [ | | | | | ] | ].
  intros child _. split.
  - intros Hpos.
    destruct (preDetails_child_order child) as (child' & Heq & Hord & Hmem).
    exists child'. rewrite Hord.
    destruct (0 <=? order child) eqn:E; [ | apply Z.leb_gt in E; lia ].
    repeat split; try done. lia.
  - intros Hneg. unfold preDetails_child.
    destruct (0 <=? order child) eqn:E; [ apply Z.leb_le in E; lia | done ].
Qed.

(** ** [getValue] *)

Lemma element_lookup (l : list Json) (i : Z) (x : Json) :
  0 <= i -> l !! Z.to_nat i = Some x -> element (JArr l) i = x.
Proof.
  intros Hi Hx. unfold element.
  destruct (i <? 0) eqn:E; [ lia | ]. by rewrite Hx.
Qed.

(** C10, as amended.  On a node whose value is an array, [getValue] takes
    the row context of the process for the no-row sentinel; when the row it
    then has is not the sentinel and lies inside the array it returns that
    element, otherwise the first element of a non-empty array, and null for
    an empty one.  Null comes back only from an empty array or as an element
    of the array. *)
Theorem getValue_array (getValueRowNr : Z) (var : JsonObject) (l : list Json) (rowNr : Z) :
  member "value" var = JArr l ->
  0 <= rowNr <= UINT8_MAX ->
  0 <= getValueRowNr <= UINT8_MAX ->
  let row := if rowNr =? UINT8_MAX then getValueRowNr else rowNr in
  (row <> UINT8_MAX -> row < Z.of_nat (length l) ->
     l !! Z.to_nat row = Some (getValue getValueRowNr var rowNr)) /\
  (row = UINT8_MAX \/ Z.of_nat (length l) <= row -> l <> [] ->
     l !! 0%nat = Some (getValue getValueRowNr var rowNr)) /\
  (l = [] -> getValue getValueRowNr var rowNr = JNull) /\
  (getValue getValueRowNr var rowNr = JNull -> l = [] \/ JNull ∈ l).
Proof.
  intros Hv Hr Hg row.
  assert (Hrow : 0 <= row <= UINT8_MAX) by (subst row; destruct (rowNr =? UINT8_MAX); lia).
  unfold getValue, valArray. rewrite Hv. simpl isArray. cbv iota. fold row.
  unfold size.
  destruct (negb (row =? UINT8_MAX) && (row <? Z.of_nat (length l))) eqn:E.
  - apply andb_true_iff in E as [E1 E2].
    apply negb_true_iff, Z.eqb_neq in E1. apply Z.ltb_lt in E2.
    destruct (l !! Z.to_nat row) as [x | ] eqn:Hx.
    2:{ apply lookup_ge_None in Hx. lia. }
    rewrite (element_lookup l row x) by (done || lia).
    repeat split.
    + lia.
    + intros ->. simpl in E2. lia.
    + intros ->. right. by eapply list_elem_of_lookup_2.
  - assert (Hout : row = UINT8_MAX \/ Z.of_nat (length l) <= row).
    { apply andb_false_iff in E as [E | E].
      - left. apply negb_false_iff, Z.eqb_eq in E. done.
      - right. apply Z.ltb_ge in E. done. }
    destruct l as [ | x l ]; simpl.
    + split; [ intros; simpl in *; lia | ]. split; [ done | ]. split; [ done | by left ].
    + split; [ intros; simpl in *; lia | ]. split; [ done | ]. split; [ done | ].
      intros ->. right. left.
Qed.

(** ** [cleanUpModel] *)

Lemma onMember_setMember_ne {A} key key' (f : Json -> A) d v obj :
  key <> key' -> onMember key' f d (setMember key v obj) = onMember key' f d obj.
Proof.
  intros Hne. induction obj as [ | [k w] obj IH ]; simpl.
  - apply String.eqb_neq in Hne. by rewrite Hne.
  - destruct (String.eqb k key) eqn:E; simpl.
    + apply String.eqb_eq in E. subst k.
      apply String.eqb_neq in Hne. by rewrite Hne.
    + destruct (String.eqb k key'); [ done | exact IH ].
Qed.

Lemma onMember_alterMember {A} key (f : Json -> A) d g obj :
  onMember key f d (alterMember key g obj) = onMember key (fun w => f (g w)) d obj.
Proof.
  induction obj as [ | [k w] obj IH ]; simpl; [ done | ].
  destruct (String.eqb k key) eqn:E; simpl; rewrite E; [ done | exact IH ].
Qed.

Lemma onMember_Forall key (f : Json -> bool) (P : Json -> Prop) obj :
  Forall (fun kv => P (snd kv)) obj ->
  (forall w, P w -> f w = true) ->
  onMember key f true obj = true.
Proof.
  intros HF Hf. induction HF as [ | [k w] obj Hw _ IH ]; simpl; [ done | ].
  destruct (String.eqb k key); [ by apply Hf | exact IH ].
Qed.

Lemma order_alterMember f var : order (alterMember "n" f var) = order var.
Proof. unfold order. by rewrite member_alterMember_ne. Qed.

Lemma cleanUpModel_entries showObsolete oPos parentId l :
  cleanUpModel showObsolete oPos false parentId (JArr l) =
  JArr (omap (sweep_entry showObsolete oPos) l).
Proof.
  simpl. f_equal. induction l as [ | v l IH ]; [ done | ].
  destruct v as [ | b | z | s | l' | var ]; simpl; try (by rewrite IH).
  rewrite IH. clear IH.
  unfold removes, cleanValue, cleanOrder, sweep_var. simpl.
  rewrite order_alterMember, member_alterMember_ne by done.
  fold (obsolete var). fold (pending var).
  by destruct oPos, (obsolete var), (pending var), showObsolete.
Qed.

Lemma confirmed_setOrder z var : 0 < z -> confirmed (setOrder z var) = true.
Proof.
  intros Hz. unfold confirmed, setOrder. rewrite member_setMember_eq.
  by apply Z.ltb_lt.
Qed.

Lemma onMember_sweep_var {A} showObsolete oPos f var var' (g : Json -> A) d :
  sweep_var showObsolete oPos f var = Some var' ->
  onMember "n" g d var' = onMember "n" (fun w => g (f w)) d var.
Proof.
  unfold sweep_var. intros H.
  repeat case_match; simplify_eq; unfold setOrder;
    rewrite ?onMember_setMember_ne by done; apply onMember_alterMember.
Qed.

Lemma allVars_cleanUpModel (showObsolete oPos : bool) (p : JsonObject -> bool) :
  (forall f var var', sweep_var showObsolete oPos f var = Some var' -> p var' = true) ->
  forall vars parentId,
    allVars p (cleanUpModel showObsolete oPos false parentId vars) = true.
Proof.
  intros Hp vars.
  induction vars as [ j Hj | l IH ] using Json_vars_ind; intros parentId.
  - by destruct j.
  - rewrite cleanUpModel_entries. simpl.
    induction IH as [ | v l Hv _ IHl ]; [ done | ].
    destruct v as [ | b | z | s | l' | var ]; simpl; try exact IHl.
    destruct (sweep_var showObsolete oPos _ var) as [var' | ] eqn:E; simpl;
      [ | exact IHl ].
    rewrite (Hp _ _ _ E), (onMember_sweep_var _ _ _ _ _ _ _ E). simpl.
    rewrite (onMember_Forall _ _
               (fun w => forall parentId,
                  allVars p (cleanUpModel showObsolete oPos false parentId w) = true));
      [ exact IHl | exact Hv | ].
    intros w Hw. apply Hw.
Qed.

Lemma negate_neg z : INT_MIN < z -> negate z = - z.
Proof.
  intros H. unfold negate.
  destruct (z =? INT_MIN) eqn:E; [ apply Z.eqb_eq in E; lia | done ].
Qed.

Lemma order_negate var var1 :
  INT_MIN < order var < 0 ->
  order (setOrder (negate (order var)) var1) = - order var.
Proof.
  intros H. rewrite negate_neg by lia. apply order_setOrder.
  unfold INT_MIN, INT_MAX in *. lia.
Qed.

Lemma onMember_Forall_impl key (f g : Json -> bool) (P : Json -> Prop) obj :
  Forall (fun kv => P (snd kv)) obj ->
  (forall w, P w -> g w = true -> f w = true) ->
  onMember key g true obj = true ->
  onMember key f true obj = true.
Proof.
  intros HF Hf. induction HF as [ | [k w] obj Hw _ IH ]; simpl; [ done | ].
  destruct (String.eqb k key); [ by apply Hf | exact IH ].
Qed.

Lemma allVars_cleanUpModel_from (showObsolete oPos : bool) (q p : JsonObject -> bool) :
  (forall f var var',
     q var = true -> sweep_var showObsolete oPos f var = Some var' -> p var' = true) ->
  forall vars parentId,
    allVars q vars = true ->
    allVars p (cleanUpModel showObsolete oPos false parentId vars) = true.
Proof.
  intros Hp vars.
  induction vars as [ j Hj | l IH ] using Json_vars_ind; intros parentId Hq.
  - by destruct j.
  - rewrite cleanUpModel_entries. simpl in Hq |- *.
    induction IH as [ | v l Hv _ IHl ]; [ done | ].
    simpl in Hq. apply andb_true_iff in Hq as [Hqv Hrest].
    specialize (IHl Hrest).
    destruct v as [ | b | z | s | l' | var ]; simpl; try exact IHl.
    apply andb_true_iff in Hqv as [Hqvar Hn].
    destruct (sweep_var showObsolete oPos _ var) as [var' | ] eqn:E; simpl;
      [ | exact IHl ].
    rewrite (Hp _ _ _ Hqvar E), (onMember_sweep_var _ _ _ _ _ _ _ E). simpl.
    rewrite (onMember_Forall_impl "n" _ (allVars q)
               (fun w => forall parentId,
                  allVars q w = true ->
                  allVars p (cleanUpModel showObsolete oPos false parentId w) = true));
      [ exact IHl | exact Hv | | exact Hn ].
    intros w Hw Hg. by apply Hw.
Qed.

(** C1, as amended.  With [ro] clear the sweep walks an array entry by
    entry and keeps the entries that are no object.  In the mode that
    follows the declarations ([oPos] set) it drops each variable whose order
    is missing or not below 0, together with what is under it, and gives
    every other variable the negated order and the swept children; with
    [showObsolete] set it drops nothing.  When no variable of the tree has
    the order [INT_MIN], whose negation overflows, every variable left
    after that sweep, at every depth, holds a positive order when the flag
    is clear, and reads a non-negative order when it is set.  In the other
    mode ([oPos] clear) the sweep drops each variable whose order is missing
    or below 0, whatever the flag, and no variable left is pending. *)
Theorem cleanUpModel_terminal_sweep (showObsolete oPos : bool) (parentId : Json)
    (l : list Json) :
  cleanUpModel showObsolete oPos false parentId (JArr l) =
    JArr (omap (sweep_entry showObsolete oPos) l) /\
  (forall f var, sweep_var false true f var = None <-> obsolete var = true) /\
  (forall f var, is_Some (sweep_var true true f var)) /\
  (forall f var, sweep_var showObsolete false f var = None <-> pending var = true) /\
  (forall f var var',
     INT_MIN < order var -> sweep_var showObsolete true f var = Some var' ->
     order var' = Z.abs (order var)) /\
  (allVars (fun var => INT_MIN <? order var) (JArr l) = true ->
   allVars confirmed (cleanUpModel false true false parentId (JArr l)) = true /\
   allVars (fun var => 0 <? order var)
     (cleanUpModel false true false parentId (JArr l)) = true /\
   allVars (fun var => 0 <=? order var)
     (cleanUpModel true true false parentId (JArr l)) = true) /\
  allVars (fun var => negb (pending var))
    (cleanUpModel showObsolete false false parentId (JArr l)) = true.
Proof.
  assert (Hkept : forall so f var var',
            INT_MIN < order var -> sweep_var so true f var = Some var' ->
            order var' = Z.abs (order var) /\
            (obsolete var = false -> confirmed var' = true /\ 0 < order var')).
  { intros so f var var' Hmin. unfold sweep_var.
    destruct (obsolete var) eqn:Ho.
    - destruct so; [ | done ]. intros [= <-]. split; [ | done ].
      rewrite order_alterMember. unfold obsolete in Ho.
      apply orb_true_iff in Ho as [Ho | Ho].
      + unfold order. by destruct (member "o" var).
      + apply Z.leb_le in Ho. lia.
    - intros [= <-]. unfold obsolete in Ho. apply orb_false_iff in Ho as [_ Ho].
      apply Z.leb_gt in Ho.
      assert (Heq : order (setOrder (negate (order var)) (alterMember "n" f var))
                    = - order var) by (apply order_negate; lia).
      split; [ lia | ]. intros _. split; [ | lia ].
      rewrite negate_neg by lia. apply confirmed_setOrder. lia. }
  split; [ apply cleanUpModel_entries | ].
  split; [ intros f var; unfold sweep_var; by destruct (obsolete var) | ].
  split; [ intros f var; unfold sweep_var; by destruct (obsolete var) | ].
  split; [ intros f var; unfold sweep_var; by destruct (pending var) | ].
  split; [ intros f var var' Hmin E; by apply (Hkept _ _ _ _ Hmin E) | ].
  split.
  - intros Hmin. split; [ | split ].
    + apply (allVars_cleanUpModel_from false true (fun var => INT_MIN <? order var));
        [ | exact Hmin ].
      intros f var var' Hq%Z.ltb_lt E.
      destruct (Hkept _ _ _ _ Hq E) as [_ Hc]. apply Hc.
      unfold sweep_var in E. by destruct (obsolete var).
    + apply (allVars_cleanUpModel_from false true (fun var => INT_MIN <? order var));
        [ | exact Hmin ].
      intros f var var' Hq%Z.ltb_lt E. apply Z.ltb_lt.
      destruct (Hkept _ _ _ _ Hq E) as [_ Hc]. apply Hc.
      unfold sweep_var in E. by destruct (obsolete var).
    + apply (allVars_cleanUpModel_from true true (fun var => INT_MIN <? order var));
        [ | exact Hmin ].
      intros f var var' Hq%Z.ltb_lt E. apply Z.leb_le.
      destruct (Hkept _ _ _ _ Hq E) as [-> _]. lia.
  - apply allVars_cleanUpModel. intros f var var'. unfold sweep_var.
    destruct (pending var) eqn:Hp; [ done | ]. intros [= <-].
    unfold pending, order in *. rewrite member_alterMember_ne by done.
    by rewrite Hp.
Qed.

(** ** [rows] *)

Lemma rows_loop_wrapping {S} (f : JsonObject -> Z -> S -> S) this values :
  forall (k : nat) (s : S),
    rows_loop (Some f) this values (Z.of_nat k mod 256) s =
    foldl (fun s i => f this (Z.of_nat i mod 256) s) s (seq k (length values)).
Proof.
  induction values as [ | x values IH ]; intros k s; simpl; [ done | ].
  rewrite <- IH. f_equal.
  rewrite Zplus_mod_idemp_l. f_equal. lia.
Qed.

Lemma rows_loop_ascending {S} (f : JsonObject -> Z -> S -> S) this values :
  forall (k : nat) (s : S),
    (k + length values <= 256)%nat ->
    rows_loop (Some f) this values (Z.of_nat k) s =
    foldl (fun s i => f this (Z.of_nat i) s) s (seq k (length values)).
Proof.
  induction values as [ | x values IH ]; intros k s Hk; simpl; [ done | ].
  destruct values as [ | y values ]; [ done | ].
  simpl in Hk. rewrite <- IH by (simpl; lia). f_equal.
  rewrite Z.mod_small by lia. lia.
Qed.

Lemma foldl_record_call this (g : nat -> Z) (l : list nat) calls :
  foldl (fun s i => record_call this (g i) s) calls l =
  (calls ++ map (fun i => (this, g i)) l)%list.
Proof.
  revert calls. induction l as [ | i l IH ]; intros calls; simpl.
  - by rewrite app_nil_r.
  - rewrite IH. unfold record_call. by rewrite <- app_assoc.
Qed.

(** C8, as amended.  [rows] takes the row count from the first child alone:
    with a visitor it calls it once for each entry of the value array of
    [children()[0]], with the table node and the row index, which counts up
    from 0 in a [uint8_t]: for an array of at most 256 entries the calls are
    those for 0, 1, ..., length - 1, in this order.  When the first child
    has no array value there is no call. *)
Theorem rows_calls (this : JsonObject) :
  (forall values, valArray (firstChild this) = JArr values ->
     (forall S (f : JsonObject -> Z -> S -> S) (s : S),
        rows (Some f) this s =
        foldl (fun s i => f this (Z.of_nat i mod 256) s) s (seq 0 (length values))) /\
     rows (Some record_call) this [] =
       map (fun i => (this, Z.of_nat i mod 256)) (seq 0 (length values)) /\
     ((length values <= 256)%nat ->
        rows (Some record_call) this [] =
          map (fun i => (this, Z.of_nat i)) (seq 0 (length values)))) /\
  (isArray (valArray (firstChild this)) = false ->
     forall S (f : JsonObject -> Z -> S -> S) (s : S), rows (Some f) this s = s).
Proof.
  split.
  - intros values Hv.
    assert (Hall : forall S (f : JsonObject -> Z -> S -> S) (s : S),
              rows (Some f) this s =
              foldl (fun s i => f this (Z.of_nat i mod 256) s) s (seq 0 (length values))).
    { intros S f s. unfold rows. rewrite Hv.
      apply (rows_loop_wrapping f this values 0%nat s). }
    split; [ exact Hall | ]. split.
    + rewrite Hall. apply (foldl_record_call this (fun i => Z.of_nat i mod 256)).
    + intros Hlen. unfold rows. rewrite Hv.
      change 0 with (Z.of_nat 0).
      rewrite (rows_loop_ascending record_call this values 0%nat []) by (simpl; lia).
      apply (foldl_record_call this Z.of_nat).
  - intros Hn S f s. unfold rows.
    by destruct (valArray (firstChild this)).
Qed.

(** ** The options lookup *)

Lemma answer_app l1 l2 value s g o :
  0 <= s <= value ->
  answer (l1 ++ l2) value s g o =
  (let '(found, cells) := answer l1 value s g o in
   if found then (true, cells)
   else answer l2 value (startValue cells) (groupName cells) (optionName cells)).
Proof.
  intros Hs. unfold answer.
  destruct (l1 !! Z.to_nat (value - s)) as [[grp leaf] | ] eqn:E.
  - by rewrite (lookup_app_l_Some _ _ _ _ E).
  - apply lookup_ge_None in E. rewrite lookup_app_r by done. simpl.
    replace (Z.to_nat (value - (s + Z.of_nat (length l1))))
      with (Z.to_nat (value - s) - length l1)%nat by lia.
    destruct (l2 !! _) as [[grp leaf] | ]; [ done | ].
    rewrite length_app. do 2 f_equal. lia.
Qed.

Lemma answer_nil value s g o :
  answer [] value s g o = (false, mkLookup s g o).
Proof. unfold answer. rewrite lookup_nil. simpl. do 2 f_equal. lia. Qed.

Lemma answer_bounds l value s g o found cells :
  0 <= s <= value ->
  answer l value s g o = (found, cells) ->
  found = false ->
  s <= startValue cells <= value /\ groupName cells = g /\ optionName cells = o.
Proof.
  intros Hs. unfold answer.
  destruct (l !! Z.to_nat (value - s)) as [[grp leaf] | ] eqn:E.
  - intros [= <- <-]. done.
  - intros [= <- <-] _. simpl. apply lookup_ge_None in E. repeat split; lia.
Qed.

(** The search is a lookup by position in [optionsList]: the counter
    reaches [value] on the option at that position and on no other. *)
Lemma findOptionsTextRec_positional options :
  forall value parentGroup s g o,
    0 <= s <= value -> value <= UINT8_MAX ->
    findOptionsTextRec options value parentGroup (mkLookup s g o) =
    answer (optionsList options parentGroup) value s g o.
Proof.
  unfold UINT8_MAX.
  induction options as [ | b | z | str | l IH | m IH ] using Json_nested_ind;
    intros value parentGroup s g o Hs Hv;
    try (simpl; unfold answer; simpl;
         destruct (s =? value) eqn:E;
         [ apply Z.eqb_eq in E; subst s; by rewrite Z.sub_diag
         | apply Z.eqb_neq in E;
           destruct (Z.to_nat (value - s)) as [ | n ] eqn:En; [ lia | ];
           simpl; rewrite Z.mod_small by lia; done ]).
  - simpl. revert s g o Hs.
    induction IH as [ | x l Hx _ IHl ]; intros s g o Hs; simpl.
    + by rewrite answer_nil.
    + rewrite answer_app by done. rewrite Hx by done.
      destruct (answer (optionsList x parentGroup) value s g o) as [found cells] eqn:E.
      destruct found; [ done | ].
      destruct (answer_bounds _ _ _ _ _ _ _ Hs E eq_refl) as (Hb & _ & _).
      destruct cells as [s' g' o']. simpl in *. apply IHl. lia.
  - simpl. revert s g o Hs.
    induction IH as [ | [k x] m Hx _ IHm ]; intros s g o Hs; simpl.
    + by rewrite answer_nil.
    + rewrite answer_app by done. simpl in Hx. rewrite Hx by done.
      destruct (answer _ value s g o) as [found cells] eqn:E.
      destruct found; [ done | ].
      destruct (answer_bounds _ _ _ _ _ _ _ Hs E eq_refl) as (Hb & _ & _).
      destruct cells as [s' g' o']. simpl in *. apply IHm. lia.
Qed.

(** An option found inside a group comes back with the name of its
    outermost group and its text, each cut to the 31 characters of its
    buffer. *)
Lemma findOptionsText_found (varEvents : list VarEvent) (v : Var) (value : Z)
    (st st1 : State) (options : Json) (group text : string) :
  getOptions varEvents v st = Some (st1, options) ->
  0 <= value <= UINT8_MAX ->
  optionsList options None !! Z.to_nat value = Some (Some group, JStr text) ->
  findOptionsText varEvents v value st =
    Some (if negb (isNull (optionsOf v st)) then st1 else clearOptions v st1,
          String.substring 0 31 group, String.substring 0 31 text).
Proof.
  intros Hget Hv Hfound. unfold findOptionsText. rewrite Hget. simpl.
  rewrite findOptionsTextRec_positional by lia. unfold answer.
  rewrite Z.sub_0_r, Hfound. done.
Qed.

(** C9, at the inputs on which the code departs from it.  When [value] is
    not the position of an option, the search returns false and leaves the
    two names null, as the claim has it; [findOptionsText] then copies them
    with [strlcpy] from [c_str()], the null pointer, and has no defined
    result. *)
Theorem findOptionsText_not_found (varEvents : list VarEvent) (v : Var) (value : Z)
    (st st1 : State) (options : Json) :
  getOptions varEvents v st = Some (st1, options) ->
  Z.of_nat (length (optionsList options None)) <= value <= UINT8_MAX ->
  findOptionsTextRec options value None (mkLookup 0 None None) =
    (false, mkLookup (Z.of_nat (length (optionsList options None))) None None) /\
  findOptionsText varEvents v value st = None.
Proof.
  intros Hget Hv.
  assert (Hrec : findOptionsTextRec options value None (mkLookup 0 None None) =
                 (false, mkLookup (Z.of_nat (length (optionsList options None))) None None)).
  { rewrite findOptionsTextRec_positional by lia. unfold answer.
    rewrite (proj2 (lookup_ge_None _ _)) by lia. done. }
  split; [ exact Hrec | ].
  unfold findOptionsText. rewrite Hget. simpl. by rewrite Hrec.
Qed.

(** ** [triggerEvent] *)

Lemma triggerEvent_body_ext varEvents self1 self2 v eventType rowNr init st :
  (forall st', self1 v onSetValue rowNr false st' = self2 v onSetValue rowNr false st') ->
  triggerEvent_body varEvents self1 v eventType rowNr init st =
  triggerEvent_body varEvents self2 v eventType rowNr init st.
Proof.
  intros Hself. unfold triggerEvent_body.
  destruct (changeStep v eventType rowNr init st) as [st1 | ]; [ simpl | done ].
  destruct (callVarEvent varEvents v eventType rowNr st1) as [st2 result].
  destruct (addDeleteStep v eventType rowNr st2) as [st3 | ]; [ simpl | done ].
  by rewrite Hself.
Qed.

Lemma triggerEvent_body_onSetValue varEvents self v rowNr init st :
  triggerEvent_body varEvents self v onSetValue rowNr init st =
  Some (callVarEvent varEvents v onSetValue rowNr st).
Proof.
  unfold triggerEvent_body, changeStep, addDeleteStep. simpl.
  by destruct (callVarEvent varEvents v onSetValue rowNr st).
Qed.

(** The function is its body applied to itself. *)
Lemma triggerEvent_unfold varEvents v eventType rowNr init st :
  triggerEvent varEvents v eventType rowNr init st =
  triggerEvent_body varEvents (triggerEvent varEvents) v eventType rowNr init st.
Proof.
  unfold triggerEvent. apply triggerEvent_body_ext.
  intros st'. by rewrite !triggerEvent_body_onSetValue.
Qed.

Lemma syncPointer_frame v rowNr st st1 :
  syncPointer v rowNr st = Some st1 ->
  objects st1 = objects st /\ responseObject st1 = responseObject st /\
  changedVarsQueue st1 = changedVarsQueue st.
Proof.
  unfold syncPointer. intros H.
  repeat case_match; simplify_option_eq; done.
Qed.



Lemma callVarEvent_out_of_range varEvents v eventType rowNr st :
  Z.of_nat (length varEvents) <= asSize (member "fun" (objects st v)) ->
  callVarEvent varEvents v eventType rowNr st = (st, false).
Proof.
  intros H. unfold callVarEvent.
  destruct (negb (isNull (member "fun" (objects st v)))); [ | done ].
  destruct (asSize (member "fun" (objects st v)) <? Z.of_nat (length varEvents)) eqn:E;
    [ apply Z.ltb_lt in E; lia | done ].
Qed.


Lemma callVarEvent_preserves {A} (proj : State -> A) varEvents v eventType rowNr st :
  Forall (preserves proj) varEvents ->
  proj (fst (callVarEvent varEvents v eventType rowNr st)) = proj st.
Proof.
  intros HF. unfold callVarEvent.
  destruct (negb (isNull (member "fun" (objects st v)))); [ | done ].
  destruct (asSize (member "fun" (objects st v)) <? Z.of_nat (length varEvents)); [ | done ].
  destruct (varEvents !! Z.to_nat (asSize (member "fun" (objects st v)))) as [h | ] eqn:E;
    [ | done ].
  rewrite Forall_lookup in HF. by apply (HF _ _ E).
Qed.

Lemma triggerEvent_onChange varEvents v rowNr init st :
  triggerEvent varEvents v onChange rowNr init st =
  callVarEvent varEvents v onChange rowNr <$>
    syncPointer v rowNr
      (if negb init && negb (isNull (member "dash" (objects st v)))
       then push_back v st else st).
Proof.
  rewrite triggerEvent_unfold. unfold triggerEvent_body, changeStep, addDeleteStep. simpl.
  destruct (syncPointer v rowNr _) as [st1 | ]; [ simpl | done ].
  by destruct (callVarEvent varEvents v onChange rowNr st1).
Qed.

(** C6, as amended.  An [onChange] event that is no initialisation puts the
    node on the queue of changed variables before anything else, when its
    member "dash" is not null; a node without that member is not queued.
    The pointer synchronisation and the handler run on the state so
    obtained, the synchronisation leaves the queue alone, and so the queue
    is the same at the end when the handlers do not touch it. *)
Theorem triggerEvent_onChange_enqueues (varEvents : list VarEvent) (v : Var)
    (rowNr : Z) (st : State) :
  let st0 := if isNull (member "dash" (objects st v)) then st else push_back v st in
  changedVarsQueue st0 =
    (if isNull (member "dash" (objects st v)) then changedVarsQueue st
     else changedVarsQueue st ++ [v])%list /\
  triggerEvent varEvents v onChange rowNr false st =
    callVarEvent varEvents v onChange rowNr <$> syncPointer v rowNr st0 /\
  (forall st1, syncPointer v rowNr st0 = Some st1 ->
     changedVarsQueue st1 = changedVarsQueue st0) /\
  (Forall (preserves changedVarsQueue) varEvents ->
   forall st' result,
     triggerEvent varEvents v onChange rowNr false st = Some (st', result) ->
     changedVarsQueue st' = changedVarsQueue st0).
Proof.
  intros st0.
  assert (Heq : triggerEvent varEvents v onChange rowNr false st =
                callVarEvent varEvents v onChange rowNr <$> syncPointer v rowNr st0).
  { rewrite triggerEvent_onChange. subst st0. simpl.
    by destruct (isNull (member "dash" (objects st v))). }
  split; [ subst st0; by destruct (isNull (member "dash" (objects st v))) | ].
  split; [ exact Heq | ].
  split; [ intros st1 H; by apply syncPointer_frame in H as (_ & _ & H) | ].
  intros HF st' result. rewrite Heq.
  destruct (syncPointer v rowNr st0) as [st1 | ] eqn:E; [ simpl | done ].
  intros [= H]. apply syncPointer_frame in E as (_ & _ & E). rewrite <- E.
  replace st' with (fst (callVarEvent varEvents v onChange rowNr st1)) by (by rewrite H).
  by apply callVarEvent_preserves.
Qed.

(** ** Row-array bindings *)

Lemma vectorAt_insert_eq t pointer l (memory : gmap Z Native) :
  vectorAt t pointer (<[pointer := Vector t l]> memory) = Some l.
Proof.
  unfold vectorAt. rewrite lookup_insert_eq. by rewrite decide_True.
Qed.

Lemma vectorAt_insert_ne t pointer q n (memory : gmap Z Native) :
  pointer <> q ->
  vectorAt t q (<[pointer := n]> memory) = vectorAt t q memory.
Proof. intros H. unfold vectorAt. by rewrite lookup_insert_ne. Qed.

Lemma vectorAt_lookup t pointer (m1 m2 : gmap Z Native) :
  m1 !! pointer = m2 !! pointer -> vectorAt t pointer m1 = vectorAt t pointer m2.
Proof. intros H. unfold vectorAt. by rewrite H. Qed.

Lemma grow_insert (rowNr : Z) filler x (l : list NativeValue) :
  0 <= rowNr -> Z.of_nat (length l) <= rowNr ->
  <[Z.to_nat rowNr := x]> (grow rowNr filler l) =
  (l ++ replicate (Z.to_nat rowNr - length l) filler ++ [x])%list.
Proof.
  intros H0 Hlen. unfold grow.
  replace (Z.to_nat (rowNr + 1) - length l)%nat
    with (S (Z.to_nat rowNr - length l)) by lia.
  rewrite replicate_S_end.
  rewrite insert_app_r_alt by lia.
  f_equal.
  rewrite insert_app_r_alt by (rewrite length_replicate; lia).
  rewrite length_replicate.
  replace (Z.to_nat rowNr - length l - (Z.to_nat rowNr - length l))%nat with 0%nat by lia.
  done.
Qed.

Lemma toNative_defined t v :
  t <> VectorString \/ isNull v = false /\ asJsonString v <> None ->
  is_Some (toNative t v).
Proof.
  intros [Ht | [_ Hs]]; destruct t; simpl; try done; try (by eexists).
  destruct (asJsonString v); [ by eexists | done ].
Qed.

Lemma toNative_None t v :
  toNative t v = None <-> t = VectorString /\ asJsonString v = None.
Proof.
  destruct t; simpl; try (split; [ done | by intros [? _] ]).
  destruct (asJsonString v); simpl; split; try done. by intros [_ ?].
Qed.

(** C3, at every input of the claim.  On a node with a row-array binding
    (the value is an array, "p" a single pointer that is not 0, the type tag
    one of those bound to a native sequence), an [onChange] event for a row
    [rowNr] at or beyond the end of the native sequence [l] makes the
    sequence [l], followed by the filler of its type up to position [rowNr],
    followed at [rowNr] by the value [x] of that row of the node, as the
    native type holds it: its length is [rowNr + 1].  This is the state the
    handler is called on, and the state at the end when the handlers do not
    write to the sequence.  There is no such [x] in one case: a text column
    whose value for the row is no string.  There [strlcpy] is handed the
    null pointer as its source, and the event has no defined result. *)
Theorem triggerEvent_row_growth (varEvents : list VarEvent) (v : Var) (rowNr : Z)
    (init : bool) (st : State) (pointer : Z) (t : NativeType)
    (l : list NativeValue) :
  isArray (member "value" (objects st v)) = true ->
  isArray (member "p" (objects st v)) = false ->
  asInt (member "p" (objects st v)) = pointer ->
  pointer <> 0 ->
  vectorType (member "type" (objects st v)) = Some t ->
  0 <= rowNr < UINT8_MAX ->
  vectorAt t pointer (memory st) = Some l ->
  Z.of_nat (length l) <= rowNr ->
  match toNative t (valueRow (objects st v) rowNr) with
  | Some x =>
      exists st1 l',
        triggerEvent varEvents v onChange rowNr init st =
          Some (callVarEvent varEvents v onChange rowNr st1) /\
        vectorAt t pointer (memory st1) = Some l' /\
        l' = (l ++ replicate (Z.to_nat rowNr - length l) (sentinel t) ++ [x])%list /\
        Z.of_nat (length l') = rowNr + 1 /\
        (forall q, q <> pointer -> memory st1 !! q = memory st !! q) /\
        (Forall (preserves (fun st => memory st !! pointer)) varEvents ->
         vectorAt t pointer (memory (fst (callVarEvent varEvents v onChange rowNr st1))) =
           Some l')
  | None =>
      t = VectorString /\
      asJsonString (valueRow (objects st v) rowNr) = None /\
      triggerEvent varEvents v onChange rowNr init st = None
  end.
Proof.
  intros Hval Hparr Hp Hp0 Ht Hrow Hl Hlen.
  rewrite triggerEvent_onChange.
  set (st0 := if negb init && negb (isNull (member "dash" (objects st v)))
              then push_back v st else st).
  assert (Hobj : objects st0 = objects st) by (subst st0; by destruct (_ && _)).
  assert (Hmem : memory st0 = memory st) by (subst st0; by destruct (_ && _)).
  assert (Hsync : syncPointer v rowNr st0 =
            x ← toNative t (valueRow (objects st v) rowNr);
            Some (setMemory
                    (<[pointer := Vector t
                         (l ++ replicate (Z.to_nat rowNr - length l) (sentinel t)
                            ++ [x])%list]> (memory st)) st0)).
  { unfold syncPointer, pointerOf, value. rewrite Hobj, Hmem, Hparr, Hval, Hp, Ht, Hl.
    assert (Hnull : isNull (member "p" (objects st v)) = false)
      by (by destruct (member "p" (objects st v))).
    assert (Hr : (rowNr =? UINT8_MAX) = false) by (apply Z.eqb_neq; lia).
    assert (Hz : (pointer =? 0) = false) by (by apply Z.eqb_neq).
    rewrite Hnull, Hr, Hz. simpl.
    destruct (toNative t (valueRow (objects st v) rowNr)) as [x | ]; [ simpl | done ].
    rewrite grow_insert by lia. done. }
  rewrite Hsync.
  destruct (toNative t (valueRow (objects st v) rowNr)) as [x | ] eqn:Hx; simpl.
  - set (l' := (l ++ replicate (Z.to_nat rowNr - length l) (sentinel t) ++ [x])%list).
    eexists _, l'. split; [ reflexivity | ]. simpl.
    split; [ apply vectorAt_insert_eq | ]. split; [ done | ]. split; [ | split ].
    + subst l'. rewrite !length_app, length_replicate. simpl. lia.
    + intros q Hq. by apply lookup_insert_ne.
    + intros HF.
      erewrite vectorAt_lookup;
        [ | apply (callVarEvent_preserves (fun st => memory st !! pointer)); exact HF ].
      simpl. apply vectorAt_insert_eq.
  - apply toNative_None in Hx as [Htext Hstr]. done.
Qed.

Lemma erase_shift (rowNr : Z) (l : list NativeValue) :
  0 <= rowNr < Z.of_nat (length l) ->
  length (erase rowNr l) = (length l - 1)%nat /\
  (forall i, (i < Z.to_nat rowNr)%nat -> erase rowNr l !! i = l !! i) /\
  (forall i, (Z.to_nat rowNr <= i)%nat -> erase rowNr l !! i = l !! S i).
Proof.
  intros H. unfold erase.
  destruct (rowNr <? Z.of_nat (length l)) eqn:E; [ | apply Z.ltb_ge in E; lia ].
  split; [ | split ].
  - rewrite length_delete; [ done | ]. apply lookup_lt_is_Some. lia.
  - intros i Hi. by apply list_lookup_delete_lt.
  - intros i Hi. by apply list_lookup_delete_ge.
Qed.

Lemma erase_short (rowNr : Z) (l : list NativeValue) :
  Z.of_nat (length l) <= rowNr -> erase rowNr l = l.
Proof.
  intros H. unfold erase.
  destruct (rowNr <? Z.of_nat (length l)) eqn:E; [ apply Z.ltb_lt in E; lia | done ].
Qed.

Lemma eraseRows_bound (rowNr : Z) (columns : list Json) :
  forall memory : gmap Z Native,
    NoDup (omap (columnBinding rowNr) columns).*1 ->
    (forall p t, (p, t) ∈ omap (columnBinding rowNr) columns ->
       is_Some (vectorAt t p memory)) ->
    exists memory',
      eraseRows columns rowNr memory = Some memory' /\
      (forall p t l, (p, t) ∈ omap (columnBinding rowNr) columns ->
         vectorAt t p memory = Some l ->
         vectorAt t p memory' = Some (erase rowNr l)) /\
      (forall q, q ∉ (omap (columnBinding rowNr) columns).*1 ->
         memory' !! q = memory !! q).
Proof.
  induction columns as [ | childVar columns IH ]; intros memory Hnd Hty.
  - exists memory. split; [ done | ]. split; [ | done ].
    intros p t l Hin. by apply elem_of_nil in Hin.
  - simpl in Hnd, Hty |- *. unfold columnBinding in Hnd, Hty |- *.
    set (child := match childVar with JObj c => c | _ => [] end) in *.
    destruct (pointerOf child rowNr =? 0) eqn:Ep.
    { simpl. apply IH; assumption. }
    destruct (vectorType (member "type" child)) as [t | ] eqn:Et; simpl in *.
    2:{ apply IH; assumption. }
    apply NoDup_cons in Hnd as [Hp Hnd].
    destruct (Hty (pointerOf child rowNr) t) as [l Hl]; [ left | ].
    rewrite Hl. simpl.
    set (pointer := pointerOf child rowNr) in *.
    set (memory1 := <[pointer := Vector t (erase rowNr l)]> memory).
    assert (Hother : forall p' t', (p', t') ∈ omap (columnBinding rowNr) columns ->
              p' <> pointer).
    { intros p' t' Hin ->. apply Hp. apply list_elem_of_fmap. by exists (pointer, t'). }
    destruct (IH memory1 Hnd) as (memory' & Hrun & Hvec & Hrest).
    { intros p' t' Hin. subst memory1.
      rewrite vectorAt_insert_ne by (intros <-; by eapply Hother).
      apply Hty. by right. }
    exists memory'. split; [ exact Hrun | ]. split.
    + intros p' t' l' Hin Hl'. apply elem_of_cons in Hin as [ [= -> ->] | Hin ].
      * rewrite Hl in Hl'. injection Hl' as <-.
        erewrite vectorAt_lookup; [ | by apply Hrest ].
        apply vectorAt_insert_eq.
      * apply Hvec; [ done | ]. subst memory1.
        rewrite vectorAt_insert_ne by (intros <-; by eapply Hother). done.
    + intros q Hq. rewrite Hrest.
      * subst memory1. apply lookup_insert_ne. intros <-. apply Hq. left.
      * intros Hin. apply Hq. by right.
Qed.

Lemma setMember2_staged key1 key2 v obj :
  isNull (member key1 obj) || isObject (member key1 obj) = true ->
  memberOf key2 (member key1 (setMember2 key1 key2 v obj)) = v.
Proof.
  unfold setMember2. destruct (member key1 obj) eqn:E; try done; intros _.
  - rewrite member_setMember_eq. simpl. by rewrite String.eqb_refl.
  - rewrite member_setMember_eq. simpl. apply member_setMember_eq.
Qed.

(** C4.  An [onDelete] event for row [rowNr] runs the handler first and the
    erase cascade on the state the handler leaves, [st2].  Of every column
    of the table bound, by a pointer that is not 0 and a type tag bound to a
    native sequence, to a sequence of its own, the sequence loses its entry
    at [rowNr] when it is longer than [rowNr] (one entry less, the entries
    behind it one position down) and is as it was otherwise; no other
    address is written; and the response object then holds [rowNr] under
    "onDelete" / "rowNr". *)
Theorem triggerEvent_onDelete_cascade (varEvents : list VarEvent) (v : Var) (rowNr : Z)
    (init : bool) (st st2 : State) (result : bool) (columns : list Json) :
  0 <= rowNr <= UINT8_MAX ->
  callVarEvent varEvents v onDelete rowNr st = (st2, result) ->
  children (objects st2 v) = JArr columns ->
  NoDup (omap (columnBinding rowNr) columns).*1 ->
  (forall p t, (p, t) ∈ omap (columnBinding rowNr) columns ->
     is_Some (vectorAt t p (memory st2))) ->
  isNull (member "onDelete" (responseObject st2))
    || isObject (member "onDelete" (responseObject st2)) = true ->
  exists st',
    triggerEvent varEvents v onDelete rowNr init st = Some (st', result) /\
    (forall p t l, (p, t) ∈ omap (columnBinding rowNr) columns ->
       vectorAt t p (memory st2) = Some l ->
       vectorAt t p (memory st') = Some (erase rowNr l) /\
       (rowNr < Z.of_nat (length l) ->
          length (erase rowNr l) = (length l - 1)%nat /\
          (forall i, (i < Z.to_nat rowNr)%nat -> erase rowNr l !! i = l !! i) /\
          (forall i, (Z.to_nat rowNr <= i)%nat -> erase rowNr l !! i = l !! S i)) /\
       (Z.of_nat (length l) <= rowNr -> erase rowNr l = l)) /\
    (forall q, q ∉ (omap (columnBinding rowNr) columns).*1 ->
       memory st' !! q = memory st2 !! q) /\
    memberOf "rowNr" (member "onDelete" (responseObject st')) = JInt rowNr.
Proof.
  intros Hrow Hcall Hcols Hnd Hty Hresp.
  destruct (eraseRows_bound rowNr columns (memory st2) Hnd Hty)
    as (memory' & Hrun & Hvec & Hrest).
  rewrite triggerEvent_unfold. unfold triggerEvent_body, changeStep, addDeleteStep.
  simpl. rewrite Hcall. simpl. rewrite Hcols, Hrun. simpl.
  eexists. split; [ reflexivity | ]. simpl. split; [ | split ].
  - intros p t l Hin Hl. split; [ by apply Hvec | ]. split.
    + intros Hlt. apply erase_shift. lia.
    + apply erase_short.
  - exact Hrest.
  - by apply setMember2_staged.
Qed.

(** ** Saving the model *)

Lemma alterMember_keys key f obj : (alterMember key f obj).*1 = obj.*1.
Proof.
  induction obj as [ | [k w] obj IH ]; simpl; [ done | ].
  destruct (String.eqb k key); [ done | ].
  change (k :: (alterMember key f obj).*1 = k :: obj.*1). by rewrite IH.
Qed.

Lemma writeJsonDocToFile_entries excl l :
  writeJsonDocToFile excl (JArr l) =
  JArr (map (fun v => match v with
                      | JObj var => JObj (writeMembers excl var)
                      | other => other
                      end) l).
Proof.
  simpl. f_equal. induction l as [ | v l IH ]; [ done | ].
  destruct v as [ | b | z | s | l' | var ]; simpl; try (by rewrite IH).
  rewrite IH. do 2 f_equal. clear.
  induction var as [ | [k w] var IH ]; simpl; [ done | ].
  destruct (bool_decide (k ∈ excl)); [ exact IH | ].
  destruct (String.eqb k "n"); by rewrite IH.
Qed.

Lemma member_writeMembers_excluded excl key var :
  key ∈ excl -> member key (writeMembers excl var) = JNull.
Proof.
  intros Hin. induction var as [ | [k w] var IH ]; simpl; [ done | ].
  destruct (bool_decide (k ∈ excl)) eqn:E; [ exact IH | ].
  apply bool_decide_eq_false_1 in E.
  assert (Hne : String.eqb k key = false) by (apply String.eqb_neq; congruence).
  destruct (String.eqb k "n"); simpl; by rewrite Hne.
Qed.

Lemma member_writeMembers_kept excl key var :
  key ∉ excl ->
  member key (writeMembers excl var) =
  if String.eqb key "n" then writeJsonDocToFile excl (member key var)
  else member key var.
Proof.
  intros Hin. induction var as [ | [k w] var IH ]; simpl.
  - by destruct (String.eqb key "n").
  - destruct (String.eqb k key) eqn:Ek.
    + apply String.eqb_eq in Ek. subst k.
      rewrite bool_decide_eq_false_2 by done.
      destruct (String.eqb key "n"); simpl; by rewrite String.eqb_refl.
    + destruct (bool_decide (k ∈ excl)); [ exact IH | ].
      destruct (String.eqb k "n"); simpl; by rewrite Ek.
Qed.

Lemma cleanUpModel_ro_entries showObsolete oPos parentId l :
  cleanUpModel showObsolete oPos true parentId (JArr l) =
  JArr (map (fun v =>
               match v with
               | JObj var =>
                   JObj (cleanValue true parentId
                           (alterMember "n"
                              (cleanUpModel showObsolete oPos true (member "id" var)) var))
               | other => other
               end) l).
Proof.
  simpl. f_equal. induction l as [ | v l IH ]; [ done | ].
  destruct v as [ | b | z | s | l' | var ]; simpl; by rewrite IH.
Qed.

Lemma member_children_swept (f : Json -> Json) var :
  f JNull = JNull -> member "n" (alterMember "n" f var) = f (member "n" var).
Proof.
  intros Hf. rewrite member_alterMember_eq.
  destruct (bool_decide ("n" ∈ var.*1)) eqn:E; [ done | ].
  apply bool_decide_eq_false_1 in E. by rewrite member_notin.
Qed.

(** What becomes of one variable between the model and the file. *)
Lemma saved_var showObsolete parentId var :
  NoDup var.*1 ->
  let var' :=
    writeMembers exclusions
      (cleanValue true parentId
         (alterMember "n" (cleanUpModel showObsolete false true (member "id" var)) var)) in
  (forall k, k ∈ exclusions -> member k var' = JNull) /\
  (forall k, k ∉ exclusions -> k <> "n" -> k <> "value" -> member k var' = member k var) /\
  member "value" var' =
    (if eqStr parentId "instances" || readOnly var then JNull else member "value" var) /\
  member "n" var' = saved showObsolete (member "id" var) (member "n" var).
Proof.
  intros Hnd var'. subst var'.
  set (f := cleanUpModel showObsolete false true (member "id" var)).
  assert (Hro : readOnly (alterMember "n" f var) = readOnly var)
    by (unfold readOnly; by rewrite member_alterMember_ne).
  assert (Hn : "n" ∉ exclusions) by (by apply (proj1 (bool_decide_eq_false _))).
  assert (Hv : "value" ∉ exclusions) by (by apply (proj1 (bool_decide_eq_false _))).
  split; [ intros k Hk; by apply member_writeMembers_excluded | ].
  unfold cleanValue. rewrite Hro. simpl.
  split; [ | split ].
  - intros k Hk Hkn Hkv. rewrite member_writeMembers_kept by done.
    rewrite (proj2 (String.eqb_neq _ _) Hkn).
    destruct (eqStr parentId "instances" || readOnly var).
    + rewrite member_removeMember_ne by congruence.
      apply member_alterMember_ne. congruence.
    + apply member_alterMember_ne. congruence.
  - rewrite member_writeMembers_kept by done. simpl.
    destruct (eqStr parentId "instances" || readOnly var).
    + apply member_removeMember_eq. by rewrite alterMember_keys.
    + by apply member_alterMember_ne.
  - rewrite member_writeMembers_kept by done. simpl. unfold saved. f_equal.
    destruct (eqStr parentId "instances" || readOnly var).
    + rewrite member_removeMember_ne by done. by apply member_children_swept.
    + by apply member_children_swept.
Qed.

(** C5, as amended.  When [loop20ms] writes the model, the file holds the
    variables of the model in their order, none missing.  Of each variable
    the members "fun", "dash", "o", "p" and "oldValue" are not written; the
    value is not written either when the variable is read-only or lies
    directly under the variable "instances", and is written as it is
    otherwise; every other member but the children, "id" and "type" among
    them, is written as it is; and the children are written in the same
    way.  (The file is modelled from the specification.) *)
Theorem loop20ms_saves_model (showObsolete : bool) :
  (forall mdl, cleanUpModelDone mdl = true -> doWriteModel mdl = true ->
     modelFile (loop20ms showObsolete mdl) = Some (saved showObsolete JNull (model mdl))) /\
  forall parentId l,
    exists l',
      saved showObsolete parentId (JArr l) = JArr l' /\
      length l' = length l /\
      (forall i other, l !! i = Some other -> isObject other = false ->
         l' !! i = Some other) /\
      forall i var, l !! i = Some (JObj var) -> NoDup var.*1 ->
        exists var',
          l' !! i = Some (JObj var') /\
          (forall k, k ∈ exclusions -> member k var' = JNull) /\
          (forall k, k ∉ exclusions -> k <> "n" -> k <> "value" ->
             member k var' = member k var) /\
          member "id" var' = member "id" var /\
          member "type" var' = member "type" var /\
          member "value" var' =
            (if eqStr parentId "instances" || readOnly var then JNull
             else member "value" var) /\
          member "n" var' = saved showObsolete (member "id" var) (member "n" var).
Proof.
  split.
  - intros mdl Hdone Hwrite. unfold loop20ms. rewrite Hdone. simpl. by rewrite Hwrite.
  - intros parentId l. unfold saved at 1.
    rewrite cleanUpModel_ro_entries, writeJsonDocToFile_entries, map_map.
    eexists. split; [ reflexivity | ]. split; [ by rewrite length_map | ]. split.
    + intros i other Hi Hother. rewrite list_lookup_fmap, Hi. simpl.
      by destruct other.
    + intros i var Hi Hnd. eexists. rewrite list_lookup_fmap, Hi. simpl.
      split; [ reflexivity | ].
      destruct (saved_var showObsolete parentId var Hnd) as (H1 & H2 & H3 & H4).
      split; [ exact H1 | ]. split; [ exact H2 | ].
      split; [ by apply H2; [ apply (proj1 (bool_decide_eq_false _)) | | ] | ].
      split; [ by apply H2; [ apply (proj1 (bool_decide_eq_false _)) | | ] | ].
      split; [ exact H3 | exact H4 ].
Qed.

(** * Further properties of the code *)

(** ** [removeValuesForRow] *)

Lemma member_alterMember_present key f obj :
  isNull (member key obj) = false ->
  member key (alterMember key f obj) = f (member key obj).
Proof.
  intros Hm. rewrite member_alterMember_eq.
  destruct (bool_decide (key ∈ obj.*1)) eqn:E; [ done | ].
  apply bool_decide_eq_false_1 in E. by rewrite member_notin in Hm.
Qed.

Lemma removeValuesForRow_child_array rowNr child values :
  member "value" child = JArr values ->
  let child' :=
    alterMember "value" (removeElement rowNr)
      (alterMember "n" (removeValuesForRow_children rowNr) child) in
  member "value" child' = JArr (delete (Z.to_nat rowNr) values) /\
  member "n" child' = removeValuesForRow_children rowNr (member "n" child) /\
  forall k, k <> "value" -> k <> "n" -> member k child' = member k child.
Proof.
  intros Hv child'. subst child'. split; [ | split ].
  - rewrite member_alterMember_present.
    + by rewrite member_alterMember_ne, Hv.
    + by rewrite member_alterMember_ne, Hv.
  - rewrite member_alterMember_ne by done. by apply member_children_swept.
  - intros k Hk1 Hk2. rewrite !member_alterMember_ne by congruence. done.
Qed.

Lemma removeValuesForRow_entries rowNr var l :
  children var = JArr l ->
  children (removeValuesForRow rowNr var) =
    removeValuesForRow_children rowNr (JArr l).
Proof.
  intros Hc. unfold removeValuesForRow.
  assert (Hn : member "n" var = JArr l).
  { unfold children in Hc. by destruct (member "n" var). }
  unfold children. rewrite member_alterMember_present by (by rewrite Hn).
  by rewrite Hn.
Qed.

(** X1.  [removeValuesForRow] takes the entry of the row out of the value
    array of every direct child that has one (the entries behind it move one
    position down, and an array without that row stays as it is), does the
    same under that child, and leaves every other child, with all that is
    under it, as it is. *)
Theorem removeValuesForRow_columns (rowNr : Z) (var : JsonObject) (l : list Json) :
  children var = JArr l ->
  exists l',
    children (removeValuesForRow rowNr var) = JArr l' /\
    length l' = length l /\
    (forall k, k <> "n" -> member k (removeValuesForRow rowNr var) = member k var) /\
    forall i childVar, l !! i = Some childVar ->
      (forall child values,
         childVar = JObj child -> member "value" child = JArr values ->
         exists child',
           l' !! i = Some (JObj child') /\
           member "value" child' = JArr (delete (Z.to_nat rowNr) values) /\
           member "n" child' = removeValuesForRow_children rowNr (member "n" child) /\
           forall k, k <> "value" -> k <> "n" -> member k child' = member k child) /\
      (isArray (memberOf "value" childVar) = false -> l' !! i = Some childVar).
Proof.
  intros Hc. rewrite (removeValuesForRow_entries _ _ _ Hc). simpl.
  eexists. split; [ reflexivity | ].
  split; [ by rewrite length_map | ].
  split; [ intros k Hk; by apply member_alterMember_ne | ].
  intros i childVar Hi. rewrite list_lookup_fmap, Hi. simpl. split.
  - intros child values -> Hv. rewrite Hv. simpl.
    eexists. split; [ reflexivity | ]. by apply removeValuesForRow_child_array.
  - intros Hna. destruct childVar as [ | | | | | child ]; try done.
    simpl in Hna. by rewrite Hna.
Qed.

Lemma firstChild_lookup this l child :
  children this = JArr l -> l !! 0%nat = Some (JObj child) -> firstChild this = child.
Proof.
  intros Hc Hl. unfold firstChild. rewrite Hc.
  destruct l as [ | x l ]; [ done | ]. by injection Hl as ->.
Qed.

Lemma valArray_firstChild_inv this values :
  valArray (firstChild this) = JArr values ->
  exists l child,
    children this = JArr l /\ l !! 0%nat = Some (JObj child) /\
    member "value" child = JArr values.
Proof.
  unfold firstChild. intros Hv.
  destruct (children this) as [ | | | | l | ] eqn:Hc; try done.
  destruct l as [ | [ | | | | | child ] l ]; try done.
  exists (JObj child :: l), child. split; [ done | ]. split; [ done | ].
  change (valArray child = JArr values) in Hv.
  unfold valArray in Hv. by destruct (member "value" child).
Qed.

(** X2.  After [removeValuesForRow] for a row of the first column, [rows]
    walks one row less: the visitor is called for 0, 1, ..., length - 2. *)
Theorem rows_after_removeValuesForRow (this : JsonObject) (values : list Json) (rowNr : Z) :
  valArray (firstChild this) = JArr values ->
  0 <= rowNr < Z.of_nat (length values) ->
  (length values <= 256)%nat ->
  rows (Some record_call) (removeValuesForRow rowNr this) [] =
    map (fun i => (removeValuesForRow rowNr this, Z.of_nat i))
      (seq 0 (length values - 1)).
Proof.
  intros Hv Hr Hlen.
  destruct (valArray_firstChild_inv this values Hv) as (l & child & Hc & Hl & Hval).
  pose proof (removeValuesForRow_entries rowNr _ _ Hc) as Hc'.
  destruct l as [ | x l ]; [ done | ]. injection Hl as ->.
  simpl in Hc'. rewrite Hval in Hc'. simpl in Hc'.
  destruct (removeValuesForRow_child_array rowNr child values Hval) as (Hval' & _).
  unfold rows. rewrite (firstChild_lookup _ _ _ Hc' eq_refl).
  unfold valArray. rewrite Hval'. simpl.
  assert (Hd : length (delete (Z.to_nat rowNr) values) = (length values - 1)%nat).
  { rewrite length_delete; [ done | ]. apply lookup_lt_is_Some. lia. }
  change 0 with (Z.of_nat 0).
  rewrite (rows_loop_ascending record_call _ _ 0%nat []) by (rewrite Hd; lia).
  rewrite Hd. exact (foldl_record_call _ Z.of_nat _ []).
Qed.

(** ** [postDetails] *)

Lemma postDetails_child_response rowNr childVar response response' :
  fst (postDetails_child rowNr childVar response) =
  fst (postDetails_child rowNr childVar response').
Proof.
  unfold postDetails_child. by repeat case_match.
Qed.

Lemma postDetails_loop_children rowNr l response response' :
  fst (postDetails_loop rowNr l response) =
  omap (fun childVar => fst (postDetails_child rowNr childVar response')) l.
Proof.
  revert response. induction l as [ | childVar l IH ]; intros response; [ done | ].
  transitivity
    (match fst (postDetails_child rowNr childVar response') with
     | Some c =>
         c :: omap (fun childVar => fst (postDetails_child rowNr childVar response')) l
     | None => omap (fun childVar => fst (postDetails_child rowNr childVar response')) l
     end); [ | reflexivity ].
  cbn [postDetails_loop].
  rewrite (postDetails_child_response rowNr childVar response' response).
  destruct (postDetails_child rowNr childVar response) as [kept response1].
  rewrite <- (IH response1).
  destruct (postDetails_loop rowNr l response1) as [rest' response2].
  by destruct kept.
Qed.

Lemma postDetails_children rowNr var response l :
  0 <= order var ->
  children var = JArr l ->
  children (fst (postDetails rowNr var response)) =
    JArr (omap (fun childVar => fst (postDetails_child rowNr childVar response)) l).
Proof.
  intros Ho Hc. unfold postDetails.
  destruct (0 <=? order var) eqn:E; [ | apply Z.leb_gt in E; lia ].
  rewrite Hc.
  pose proof (postDetails_loop_children rowNr l response response) as Hl.
  destruct (postDetails_loop rowNr l response) as [l' response1].
  simpl in *. rewrite children_setMember. by rewrite Hl.
Qed.

Lemma length_omap_le {A B} (f : A -> option B) (l : list A) :
  (length (omap f l) <= length l)%nat.
Proof.
  induction l as [ | x l IH ]; [ done | ].
  change (omap f (x :: l))
    with (match f x with Some y => y :: omap f l | None => omap f l end).
  destruct (f x); simpl; lia.
Qed.

(** X3.  After [postDetails] on a node that is not itself pending, whose
    children do not have the order [INT_MIN] (its negation overflows), no
    child left without an array value is pending, and with a row given no
    child left is pending at all; no child is added. *)
Theorem postDetails_no_pending (rowNr : Z) (var : JsonObject) (response : JsonObject)
    (l : list Json) :
  0 <= order var ->
  children var = JArr l ->
  Forall (fun childVar => INT_MIN < asInt (memberOf "o" childVar)) l ->
  exists l',
    children (fst (postDetails rowNr var response)) = JArr l' /\
    (length l' <= length l)%nat /\
    forall child, JObj child ∈ l' ->
      isArray (member "value" child) = false \/ rowNr <> UINT8_MAX ->
      0 <= order child.
Proof.
  intros Ho Hc Hmin. rewrite (postDetails_children _ _ _ _ Ho Hc).
  eexists. split; [ reflexivity | ]. split; [ apply length_omap_le | ].
  intros child Hin Hcase.
  apply list_elem_of_omap in Hin as (childVar & Hl & Hkept).
  rewrite Forall_forall in Hmin. specialize (Hmin _ Hl).
  unfold postDetails_child in Hkept.
  destruct childVar as [ | | | | | c ]; try done.
  change (INT_MIN < order c) in Hmin.
  destruct (isArray (member "value" c)) eqn:Harr.
  - destruct (rowNr =? UINT8_MAX) eqn:Er; simpl in Hkept.
    + injection Hkept as <-. apply Z.eqb_eq in Er.
      destruct Hcase as [Hcase | Hcase]; congruence.
    + destruct (order c <? 0) eqn:Eo.
      * destruct (allNull _); [ done | ]. injection Hkept as <-.
        apply Z.ltb_lt in Eo. rewrite order_negate by lia. lia.
      * destruct (allNull _); [ done | ]. injection Hkept as <-.
        by apply Z.ltb_ge.
  - destruct (order c <? 0) eqn:Eo; [ done | ].
    injection Hkept as <-. by apply Z.ltb_ge.
Qed.

Lemma postDetails_child_scalar rowNr childVar response :
  isArray (memberOf "value" childVar) = false ->
  fst (postDetails_child rowNr childVar response) =
  if match childVar with JObj child => 0 <=? order child | _ => true end
  then Some childVar else None.
Proof.
  intros Hs. destruct childVar as [ | | | | | child ]; try done.
  simpl in *. rewrite Hs.
  destruct (order child <? 0) eqn:E.
  - apply Z.ltb_lt in E. by rewrite (proj2 (Z.leb_gt _ _)) by lia.
  - apply Z.ltb_ge in E. by rewrite (proj2 (Z.leb_le _ _)) by lia.
Qed.

Lemma postDetails_scalars rowNr var response l :
  0 <= order var ->
  children var = JArr l ->
  Forall (fun childVar => isArray (memberOf "value" childVar) = false) l ->
  children (fst (postDetails rowNr var response)) =
    JArr (List.filter (fun childVar =>
                         match childVar with
                         | JObj child => 0 <=? order child
                         | _ => true
                         end) l).
Proof.
  intros Ho Hc Hs. rewrite (postDetails_children _ _ _ _ Ho Hc). f_equal.
  clear Hc. induction Hs as [ | childVar l Hx _ IH ]; [ done | ].
  change (omap ?f (childVar :: l))
    with (match f childVar with Some y => y :: omap f l | None => omap f l end).
  cbv beta. rewrite (postDetails_child_scalar _ _ _ Hx), IH. simpl.
  by destruct (match childVar with JObj child => 0 <=? order child | _ => true end).
Qed.

(** X4.  On a node that is not pending and whose children have no array
    value, [postDetails] removes exactly the children that are objects of
    order below 0 and keeps the others as they are and in their order,
    whatever the row. *)
Theorem postDetails_scalar_children (rowNr : Z) (var : JsonObject) (response : JsonObject)
    (l : list Json) :
  0 <= order var ->
  children var = JArr l ->
  Forall (fun childVar => isArray (memberOf "value" childVar) = false) l ->
  children (fst (postDetails rowNr var response)) =
    JArr (List.filter (fun childVar =>
                         match childVar with
                         | JObj child => 0 <=? order child
                         | _ => true
                         end) l) /\
  forall k, k <> "n" -> member k (fst (postDetails rowNr var response)) = member k var.
Proof.
  intros Ho Hc Hs. split; [ by apply postDetails_scalars | ].
  intros k Hk. unfold postDetails.
  destruct (0 <=? order var); [ | done ]. rewrite Hc.
  destruct (postDetails_loop rowNr l response) as [l' response1]. simpl.
  by apply member_setMember_ne.
Qed.

(** X5.  A declaration pass that declares nothing evicts the details:
    [preDetails] followed by [postDetails], on a node that is not pending
    and whose children are objects without array value and of an order that
    is not 0, leaves the node without children. *)
Theorem preDetails_postDetails_evicts (rowNr : Z) (var : JsonObject)
    (response : JsonObject) (l : list Json) :
  0 <= order var ->
  children var = JArr l ->
  Forall (fun childVar =>
            exists child, childVar = JObj child /\
              isArray (member "value" child) = false /\ order child <> 0) l ->
  children (fst (postDetails rowNr (preDetails var) response)) = JArr [].
Proof.
  intros Ho Hc Hl.
  assert (Hpre : children (preDetails var) = JArr (map preDetails_child l)).
  { unfold preDetails. rewrite Hc. apply children_setMember. }
  assert (Hord : order (preDetails var) = order var).
  { unfold preDetails, order. rewrite Hc. by rewrite member_setMember_ne. }
  rewrite <- Hord in Ho.
  rewrite (postDetails_scalars rowNr _ response _ Ho Hpre).
  - f_equal. clear Hc Hpre.
    induction Hl as [ | childVar l (child & -> & Hs & Hne) _ IH ]; [ done | ].
    destruct (preDetails_child_order child) as (child' & Heq & Ho' & _).
    rewrite map_cons, Heq. simpl.
    assert (Hneg : (0 <=? order child') = false).
    { apply Z.leb_gt. rewrite Ho'. destruct (0 <=? order child) eqn:E; [ | apply Z.leb_gt in E ]; lia. }
    by rewrite Hneg.
  - apply Forall_fmap. eapply Forall_impl; [ exact Hl | ].
    intros childVar (child & -> & Hs & _).
    destruct (preDetails_child_order child) as (child' & Heq & _ & Hm).
    unfold compose. rewrite Heq. simpl. by rewrite Hm.
Qed.

Lemma forallb_isNull_replicate n : forallb isNull (replicate n JNull) = true.
Proof. induction n as [ | n IH ]; [ done | exact IH ]. Qed.

Lemma allNull_setNull (n : nat) (values : list Json) :
  forallb isNull (<[n := JNull]> (values ++ replicate (S n - length values) JNull)%list) =
  forallb isNull (delete n values).
Proof.
  revert n. induction values as [ | x values IH ]; intros n.
  - rewrite app_nil_l, insert_replicate. apply forallb_isNull_replicate.
  - destruct n as [ | n ].
    + simpl. by rewrite app_nil_r.
    + change (forallb isNull (x :: <[n := JNull]>
                (values ++ replicate (S n - length values) JNull)%list) =
              forallb isNull (x :: delete n values)).
      simpl. by rewrite IH.
Qed.

Lemma length_omap_lt {A B} (f : A -> option B) (l : list A) (x : A) :
  x ∈ l -> f x = None -> (length (omap f l) < length l)%nat.
Proof.
  intros Hin Hx. induction l as [ | y l IH ]; [ by apply elem_of_nil in Hin | ].
  change (omap f (y :: l))
    with (match f y with Some z => z :: omap f l | None => omap f l end).
  apply elem_of_cons in Hin as [ <- | Hin ].
  - rewrite Hx. pose proof (length_omap_le f l). simpl. lia.
  - specialize (IH Hin). destruct (f y); simpl; lia.
Qed.

Lemma postDetails_child_array rowNr child values response :
  member "value" child = JArr values ->
  order child < 0 ->
  0 <= rowNr < UINT8_MAX ->
  fst (postDetails_child rowNr (JObj child) response) =
    if forallb isNull (delete (Z.to_nat rowNr) values) then None
    else Some (JObj (setOrder (negate (order child))
                       (alterMember "value" (setNull rowNr) child))).
Proof.
  intros Hv Ho Hr. unfold postDetails_child. rewrite Hv. simpl.
  rewrite (proj2 (Z.eqb_neq _ _)) by lia. simpl.
  rewrite (proj2 (Z.ltb_lt _ _)) by lia.
  unfold setOrder at 1. rewrite member_setMember_ne by done.
  rewrite member_alterMember_present by (by rewrite Hv).
  rewrite Hv. simpl.
  replace (Z.to_nat (rowNr + 1)) with (S (Z.to_nat rowNr)) by lia.
  rewrite allNull_setNull.
  by destruct (forallb isNull (delete (Z.to_nat rowNr) values)).
Qed.

(** X6.  With a row given, [postDetails] on a node that is not pending
    makes the entry of that row null in the value array of a pending child
    (the array is first filled with null entries up to the row) and confirms
    the child, its order negated; when no other entry of the array holds a
    value the child is removed instead. *)
Theorem postDetails_nulls_row (rowNr : Z) (var : JsonObject) (response : JsonObject)
    (l : list Json) (child : JsonObject) (values : list Json) :
  0 <= order var ->
  children var = JArr l ->
  0 <= rowNr < UINT8_MAX ->
  JObj child ∈ l ->
  member "value" child = JArr values ->
  INT_MIN < order child < 0 ->
  exists l',
    children (fst (postDetails rowNr var response)) = JArr l' /\
    if forallb isNull (delete (Z.to_nat rowNr) values)
    then (length l' < length l)%nat
    else exists child',
        JObj child' ∈ l' /\
        member "value" child' =
          JArr (<[Z.to_nat rowNr := JNull]>
                  (values ++ replicate (Z.to_nat (rowNr + 1) - length values) JNull)%list) /\
        order child' = - order child /\
        forall k, k <> "value" -> k <> "o" -> member k child' = member k child.
Proof.
  intros Ho Hc Hr Hin Hv Hoc. rewrite (postDetails_children _ _ _ _ Ho Hc).
  eexists. split; [ reflexivity | ].
  pose proof (postDetails_child_array rowNr child values response Hv
                ltac:(lia) Hr) as Hchild.
  destruct (forallb isNull (delete (Z.to_nat rowNr) values)).
  - by apply (length_omap_lt _ _ (JObj child)).
  - eexists. split; [ apply list_elem_of_omap; by exists (JObj child) | ].
    split; [ | split ].
    + unfold setOrder. rewrite member_setMember_ne by done.
      rewrite member_alterMember_present by (by rewrite Hv). by rewrite Hv.
    + by apply order_negate.
    + intros k Hk1 Hk2. unfold setOrder.
      rewrite member_setMember_ne by congruence.
      apply member_alterMember_ne. congruence.
Qed.

Lemma setMember_setMember key v w obj :
  setMember key v (setMember key w obj) = setMember key v obj.
Proof.
  induction obj as [ | [k x] obj IH ]; simpl.
  - by rewrite String.eqb_refl.
  - destruct (String.eqb k key) eqn:E; simpl; rewrite E; [ done | by rewrite IH ].
Qed.

Lemma setMember2_idem key1 key2 v obj :
  setMember2 key1 key2 v (setMember2 key1 key2 v obj) = setMember2 key1 key2 v obj.
Proof.
  unfold setMember2 at 2 3. destruct (member key1 obj) eqn:E;
    try (unfold setMember2; by rewrite E).
  - unfold setMember2. rewrite member_setMember_eq. simpl.
    rewrite String.eqb_refl. apply setMember_setMember.
  - unfold setMember2. rewrite member_setMember_eq.
    by rewrite !setMember_setMember.
Qed.

Lemma setMember2_frame key1 key2 v obj k :
  key1 <> k -> member k (setMember2 key1 key2 v obj) = member k obj.
Proof.
  intros Hk. unfold setMember2.
  destruct (member key1 obj); try done; by apply member_setMember_ne.
Qed.

Lemma setMember2_object key1 key2 v obj :
  isNull (member key1 obj) || isObject (member key1 obj) = true ->
  isObject (member key1 (setMember2 key1 key2 v obj)) = true.
Proof.
  unfold setMember2. destruct (member key1 obj) eqn:E; try done; intros _;
    by rewrite member_setMember_eq.
Qed.

Lemma setMember2_other key1 key2 key2' v obj :
  key2 <> key2' ->
  isObject (member key1 obj) = true ->
  memberOf key2' (member key1 (setMember2 key1 key2 v obj)) =
  memberOf key2' (member key1 obj).
Proof.
  intros Hk. unfold setMember2. destruct (member key1 obj) eqn:E; try done; intros _.
  rewrite member_setMember_eq. simpl. by apply member_setMember_ne.
Qed.

Lemma postDetails_loop_response rowNr l response :
  snd (postDetails_loop rowNr l response) =
  if existsb (fun childVar => isArray (memberOf "value" childVar)) l
     && negb (rowNr =? UINT8_MAX)
  then setMember2 "details" "rowNr" (JInt rowNr) response
  else response.
Proof.
  assert (Hchild : forall childVar response,
            snd (postDetails_child rowNr childVar response) =
            if isArray (memberOf "value" childVar) && negb (rowNr =? UINT8_MAX)
            then setMember2 "details" "rowNr" (JInt rowNr) response
            else response).
  { intros childVar r. unfold postDetails_child.
    destruct childVar as [ | | | | | child ]; try done. simpl.
    destruct (isArray (member "value" child)); simpl.
    - by destruct (negb (rowNr =? UINT8_MAX)).
    - by destruct (order child <? 0). }
  revert response. induction l as [ | childVar l IH ]; intros response.
  - done.
  - cbn [postDetails_loop existsb].
    specialize (Hchild childVar response).
    destruct (postDetails_child rowNr childVar response) as [kept response1].
    specialize (IH response1).
    destruct (postDetails_loop rowNr l response1) as [rest' response2].
    simpl in *. subst response1 response2.
    destruct (isArray (memberOf "value" childVar)); simpl;
      destruct (existsb _ l); simpl; try done;
      destruct (negb (rowNr =? UINT8_MAX)); try done.
    apply setMember2_idem.
Qed.

(** X7.  [postDetails] answers through the response object: when its
    member "details" is null or an object, it holds afterwards the node as
    [postDetails] leaves it under "var", and the row under "rowNr" when the
    node is not pending, a row is given and a child has an array value; no
    other member of the response object is written. *)
Theorem postDetails_response (rowNr : Z) (var : JsonObject) (response : JsonObject) :
  isNull (member "details" response) || isObject (member "details" response) = true ->
  memberOf "var" (member "details" (snd (postDetails rowNr var response))) =
    JObj (fst (postDetails rowNr var response)) /\
  (forall k, k <> "details" ->
     member k (snd (postDetails rowNr var response)) = member k response) /\
  (forall l child,
     0 <= order var -> rowNr <> UINT8_MAX ->
     children var = JArr l -> JObj child ∈ l ->
     isArray (member "value" child) = true ->
     memberOf "rowNr" (member "details" (snd (postDetails rowNr var response))) =
       JInt rowNr).
Proof.
  intros Hd. unfold postDetails.
  destruct (0 <=? order var) eqn:Eo.
  2:{ simpl. split; [ by apply setMember2_staged | ].
      split; [ intros k Hk; apply setMember2_frame; congruence | ].
      intros l child Ho. apply Z.leb_gt in Eo. lia. }
  destruct (children var) as [ | | | | l | ] eqn:Ec;
    try (simpl; split; [ by apply setMember2_staged | ];
         split; [ intros k Hk; apply setMember2_frame; congruence | done ]).
  pose proof (postDetails_loop_response rowNr l response) as Hresp.
  destruct (postDetails_loop rowNr l response) as [l' response1].
  simpl in *. subst response1.
  set (staged := existsb _ l && negb (rowNr =? UINT8_MAX)).
  assert (Hd1 : isNull (member "details"
                  (if staged then setMember2 "details" "rowNr" (JInt rowNr) response
                   else response))
                || isObject (member "details"
                     (if staged then setMember2 "details" "rowNr" (JInt rowNr) response
                      else response)) = true).
  { destruct staged; [ | done ]. rewrite setMember2_object by done. apply orb_true_r. }
  split; [ by apply setMember2_staged | ]. split.
  - intros k Hk. rewrite setMember2_frame by congruence.
    destruct staged; [ | done ]. apply setMember2_frame. congruence.
  - intros l0 child _ Hrow [= <-] Hin Harr.
    assert (Hs : staged = true).
    { subst staged. apply andb_true_iff. split.
      - apply existsb_exists. exists (JObj child). split; [ | done ].
        by apply list_elem_of_In.
      - apply negb_true_iff. by apply Z.eqb_neq. }
    rewrite Hs. rewrite setMember2_other; [ | done | by apply setMember2_object ].
    by apply setMember2_staged.
Qed.

(** ** [walkThroughModel] and [findVar] *)

Lemma visit_app {S} (fun_ : Json -> S -> S * bool) l1 l2 s :
  visit fun_ (l1 ++ l2) s =
  (if snd (visit fun_ l1 s) then (fst (visit fun_ l1 s), true)
   else visit fun_ l2 (fst (visit fun_ l1 s))).
Proof.
  revert s. induction l1 as [ | var l1 IH ]; intros s; [ done | ].
  simpl. destruct (fun_ var s) as [s1 stop]. destruct stop; [ done | apply IH ].
Qed.

Lemma visit_stop {S} (fun_ : Json -> S -> S * bool) l s :
  snd (visit fun_ l s) = true -> visit fun_ l s = (fst (visit fun_ l s), true).
Proof. destruct (visit fun_ l s) as [s1 stop]. simpl. by intros ->. Qed.

Lemma onMember_null {A} key (f : Json -> A) d obj :
  isNull (member key obj) = true -> f JNull = d -> onMember key f d obj = d.
Proof.
  intros Hn Hf. induction obj as [ | [k w] obj IH ]; simpl in *; [ done | ].
  destruct (String.eqb k key); [ | by apply IH ].
  destruct w; try done.
Qed.

Lemma walkThroughModel_visit {S} (fun_ : Json -> S -> S * bool) root :
  forall s, walkThroughModel fun_ root s = visit fun_ (preorder root) s.
Proof.
  induction root as [ j Hj | l IH ] using Json_vars_ind; intros s.
  - by destruct j.
  - revert s. induction IH as [ | v l Hv _ IHl ]; intros s; [ done | ].
    change (preorder (JArr (v :: l)))
      with ((asJsonObject v ::
             match v with JObj var => onMember "n" preorder [] var | _ => [] end)
            ++ preorder (JArr l))%list.
    cbn [walkThroughModel]. cbn [walkThroughModel] in IHl.
    cbn [app visit]. destruct (fun_ (asJsonObject v) s) as [s1 stop].
    destruct stop; [ done | ].
    rewrite visit_app.
    assert (Hsub :
      match v with
      | JObj var =>
          if negb (isNull (member "n" var))
          then onMember "n" (fun n => walkThroughModel fun_ n s1) (s1, false) var
          else (s1, false)
      | _ => (s1, false)
      end =
      visit fun_ (match v with JObj var => onMember "n" preorder [] var | _ => [] end) s1).
    { destruct v as [ | | | | | var ]; try done.
      destruct (isNull (member "n" var)) eqn:En; simpl.
      - by rewrite (onMember_null "n" preorder []).
      - clear En. induction Hv as [ | [k w] var Hw _ IHv ]; [ done | ].
        simpl. destruct (String.eqb k "n"); [ apply Hw | exact IHv ]. }
    rewrite Hsub.
    destruct (visit fun_ _ s1) as [s2 stop2]. simpl.
    destruct stop2; [ done | apply IHl ].
Qed.

Lemma visit_never {S} (fun_ : Json -> S -> S * bool) l s :
  (forall var s, snd (fun_ var s) = false) ->
  visit fun_ l s = (foldl (fun s var => fst (fun_ var s)) s l, false).
Proof.
  intros Hno. revert s. induction l as [ | var l IH ]; intros s; [ done | ].
  simpl. specialize (Hno var s). destruct (fun_ var s) as [s1 stop].
  simpl in Hno. subst stop. apply IH.
Qed.

Lemma visit_stopped {S} (fun_ : Json -> S -> S * bool) l s :
  snd (visit fun_ l s) = true ->
  exists l1 var l2,
    l = (l1 ++ var :: l2)%list /\
    snd (fun_ var (foldl (fun s var => fst (fun_ var s)) s l1)) = true /\
    fst (visit fun_ l s) = fst (fun_ var (foldl (fun s var => fst (fun_ var s)) s l1)).
Proof.
  revert s. induction l as [ | var l IH ]; intros s; [ done | ].
  simpl. destruct (fun_ var s) as [s1 stop] eqn:E. destruct stop.
  - intros _. exists [], var, l. simpl. by rewrite E.
  - intros H. destruct (IH s1 H) as (l1 & var' & l2 & -> & Hstop & Hst).
    exists (var :: l1), var', l2. simpl. by rewrite E.
Qed.

(** X8.  [walkThroughModel] calls the visitor on the variables of the
    array in preorder, every variable before the variables under it, until
    the visitor answers to stop.  A visitor that never stops is called on
    every variable, and the walk answers false; when the walk answers true
    the visitor stopped at a variable of the model, having been called on
    those before it and on no other. *)
Theorem walkThroughModel_preorder {S : Type} (fun_ : Json -> S -> S * bool)
    (root : Json) (s : S) :
  walkThroughModel fun_ root s = visit fun_ (preorder root) s /\
  ((forall var s, snd (fun_ var s) = false) ->
   walkThroughModel fun_ root s =
     (foldl (fun s var => fst (fun_ var s)) s (preorder root), false)) /\
  (snd (walkThroughModel fun_ root s) = true ->
   exists l1 var l2,
     preorder root = (l1 ++ var :: l2)%list /\
     snd (fun_ var (foldl (fun s var => fst (fun_ var s)) s l1)) = true /\
     fst (walkThroughModel fun_ root s) =
       fst (fun_ var (foldl (fun s var => fst (fun_ var s)) s l1))).
Proof.
  rewrite walkThroughModel_visit.
  split; [ done | ]. split; [ apply visit_never | apply visit_stopped ].
Qed.

Lemma matches_object pid id var : matches pid id var = true -> isNull var = false.
Proof. by destruct var. Qed.

Lemma head_filter_app {A} (p : A -> bool) (l1 l2 : list A) :
  head (List.filter p (l1 ++ l2)) =
  match head (List.filter p l1) with
  | Some x => Some x
  | None => head (List.filter p l2)
  end.
Proof.
  induction l1 as [ | x l1 IH ]; [ done | ].
  simpl. destruct (p x); [ done | exact IH ].
Qed.

Lemma head_filter_matches pid id l var :
  head (List.filter (matches pid id) l) = Some var -> isNull var = false.
Proof.
  induction l as [ | x l IH ]; [ done | ].
  simpl. destruct (matches pid id x) eqn:E; [ | exact IH ].
  intros [= <-]. by apply (matches_object pid id).
Qed.

Lemma findVar_head pid id root :
  findVar pid id root = default JNull (head (List.filter (matches pid id) (preorder root))).
Proof.
  induction root as [ j Hj | l IH ] using Json_vars_ind.
  - by destruct j.
  - induction IH as [ | v l Hv _ IHl ]; [ done | ].
    change (preorder (JArr (v :: l)))
      with ((asJsonObject v ::
             match v with JObj var => onMember "n" preorder [] var | _ => [] end)
            ++ preorder (JArr l))%list.
    cbn [findVar]. cbn [findVar] in IHl.
    destruct v as [ | | | | | var ]; try exact IHl.
    cbn [app asJsonObject List.filter].
    change (matches pid id (JObj var))
      with (eqStr (member "pid" var) pid && eqStr (member "id" var) id).
    destruct (eqStr (member "pid" var) pid && eqStr (member "id" var) id); [ done | ].
    rewrite head_filter_app.
    assert (Hsub : onMember "n" (findVar pid id) JNull var =
              default JNull (head (List.filter (matches pid id)
                                     (onMember "n" preorder [] var)))).
    { clear IHl. induction Hv as [ | [k w] var Hw _ IHv ]; [ done | ].
      simpl. destruct (String.eqb k "n"); [ apply Hw | exact IHv ]. }
    destruct (isNull (member "n" var)) eqn:En; simpl.
    + rewrite (onMember_null "n" preorder []) by done. exact IHl.
    + rewrite Hsub.
      destruct (head (List.filter (matches pid id) (onMember "n" preorder [] var)))
        as [found | ] eqn:Eh; simpl.
      * by rewrite (head_filter_matches _ _ _ _ Eh).
      * exact IHl.
Qed.

Lemma head_filter_split {A} (p : A -> bool) (l : list A) :
  match head (List.filter p l) with
  | Some x =>
      exists l1 l2, l = (l1 ++ x :: l2)%list /\ p x = true /\
                    Forall (fun y => p y = false) l1
  | None => Forall (fun y => p y = false) l
  end.
Proof.
  induction l as [ | y l IH ]; [ by constructor | ].
  simpl. destruct (p y) eqn:E; simpl.
  - exists [], l. done.
  - destruct (head (List.filter p l)) as [x | ].
    + destruct IH as (l1 & l2 & -> & Hx & Hl1).
      exists (y :: l1), l2. split; [ done | ]. split; [ done | by constructor ].
    + by constructor.
Qed.

(** X9.  [findVar] answers the first variable of the model, in preorder,
    whose "pid" and "id" are the texts asked for, and a null object when
    there is none. *)
Theorem findVar_first (pid id : string) (root : Json) :
  (findVar pid id root = JNull /\
   Forall (fun var => matches pid id var = false) (preorder root)) \/
  (exists l1 var l2,
     preorder root = (l1 ++ JObj var :: l2)%list /\
     findVar pid id root = JObj var /\
     eqStr (member "pid" var) pid = true /\ eqStr (member "id" var) id = true /\
     Forall (fun var => matches pid id var = false) l1).
Proof.
  rewrite findVar_head.
  pose proof (head_filter_split (matches pid id) (preorder root)) as H.
  destruct (head (List.filter (matches pid id) (preorder root))) as [found | ].
  - right. destruct H as (l1 & l2 & Hl & Hm & Hl1).
    destruct found as [ | | | | | var ]; try done.
    exists l1, var, l2. apply andb_true_iff in Hm as [Hp Hi]. done.
  - by left.
Qed.

Lemma visit_seek pid id l found :
  visit (seek pid id) l found =
  match head (List.filter (matches pid id) l) with
  | Some var => (var, true)
  | None => (found, false)
  end.
Proof.
  induction l as [ | var l IH ]; [ done | ].
  simpl. unfold seek at 1. destruct (matches pid id var); [ done | exact IH ].
Qed.

(** X10.  [findVar] is the walk of [walkThroughModel] with a visitor that
    stops at the variable looked for: the walk answers true exactly when
    [findVar] finds a variable, and it stops at that variable. *)
Theorem findVar_walkThroughModel (pid id : string) (root : Json) :
  walkThroughModel (seek pid id) root JNull =
    (findVar pid id root, negb (isNull (findVar pid id root))).
Proof.
  rewrite walkThroughModel_visit, visit_seek, findVar_head.
  destruct (head (List.filter (matches pid id) (preorder root))) as [found | ] eqn:E;
    [ | done ].
  simpl. by rewrite (head_filter_matches _ _ _ _ E).
Qed.

(** ** More on [triggerEvent] *)

Lemma syncPointer_no_write v rowNr st :
  isNull (member "p" (objects st v)) = true \/
  pointerOf (objects st v) rowNr = 0 \/
  (isArray (member "value" (objects st v)) = true /\
   isArray (member "p" (objects st v)) = false /\
   (rowNr = UINT8_MAX \/ vectorType (member "type" (objects st v)) = None)) \/
  ((isArray (member "value" (objects st v)) = false \/
    isArray (member "p" (objects st v)) = true) /\
   scalarType (member "type" (objects st v)) = None) ->
  syncPointer v rowNr st = Some st.
Proof.
  intros Hc. unfold syncPointer.
  destruct (isNull (member "p" (objects st v))) eqn:Ep; [ done | ].
  destruct (pointerOf (objects st v) rowNr =? 0) eqn:Ez; [ done | ].
  apply Z.eqb_neq in Ez.
  destruct Hc as [ Hc | [ Hc | [ (Hv & Hp & Hc) | (Hc & Ht) ] ] ]; try done.
  - rewrite Hv, Hp. simpl. destruct Hc as [ -> | -> ]; [ done | ].
    by destruct (negb (rowNr =? UINT8_MAX)).
  - assert (Hs : isArray (member "value" (objects st v))
                 && negb (isArray (member "p" (objects st v))) = false).
    { destruct Hc as [ -> | -> ]; [ done | apply andb_false_r ]. }
    by rewrite Hs, Ht.
Qed.

(** X11.  An [onChange] event writes nothing to the native storage when the
    node has no pointer, when the pointer is 0, when the value is an array
    bound to one sequence and no row is given, or when the type tag is not
    one the binding knows (a text bound to a single cell among them): the
    handler is called on the state as it was, the node queued if it is to
    be. *)
Theorem triggerEvent_onChange_no_write (varEvents : list VarEvent) (v : Var)
    (rowNr : Z) (init : bool) (st : State) :
  isNull (member "p" (objects st v)) = true \/
  pointerOf (objects st v) rowNr = 0 \/
  (isArray (member "value" (objects st v)) = true /\
   isArray (member "p" (objects st v)) = false /\
   (rowNr = UINT8_MAX \/ vectorType (member "type" (objects st v)) = None)) \/
  ((isArray (member "value" (objects st v)) = false \/
    isArray (member "p" (objects st v)) = true) /\
   scalarType (member "type" (objects st v)) = None) ->
  triggerEvent varEvents v onChange rowNr init st =
    Some (callVarEvent varEvents v onChange rowNr
            (if negb init && negb (isNull (member "dash" (objects st v)))
             then push_back v st else st)).
Proof.
  intros Hc. rewrite triggerEvent_onChange.
  rewrite syncPointer_no_write; [ done | ].
  by destruct (negb init && negb (isNull (member "dash" (objects st v)))).
Qed.

Lemma scalarType_not_text type t : scalarType type = Some t -> t <> VectorString.
Proof.
  unfold scalarType. repeat case_match; intros [= <-]; done.
Qed.

Lemma scalarAt_insert_eq t pointer x (memory : gmap Z Native) :
  scalarAt t pointer (<[pointer := Scalar t x]> memory) = Some x.
Proof.
  unfold scalarAt. rewrite lookup_insert_eq. by rewrite decide_True.
Qed.

(** X12.  On a node bound to a single native cell (the value is no array,
    or "p" holds a pointer for each row), an [onChange] event stores the
    value of the node, or of the row when one is given, in the cell of that
    pointer, as the native type of the tag holds it, before the handler is
    called; no other address is written. *)
Theorem triggerEvent_onChange_scalar (varEvents : list VarEvent) (v : Var)
    (rowNr : Z) (init : bool) (st : State) (pointer : Z) (t : NativeType)
    (old : NativeValue) :
  pointerOf (objects st v) rowNr = pointer ->
  pointer <> 0 ->
  isArray (member "value" (objects st v)) && negb (isArray (member "p" (objects st v)))
    = false ->
  scalarType (member "type" (objects st v)) = Some t ->
  scalarAt t pointer (memory st) = Some old ->
  exists st1 x,
    triggerEvent varEvents v onChange rowNr init st =
      Some (callVarEvent varEvents v onChange rowNr st1) /\
    toNative t (if rowNr =? UINT8_MAX then value (objects st v)
                else valueRow (objects st v) rowNr) = Some x /\
    scalarAt t pointer (memory st1) = Some x /\
    (forall q, q <> pointer -> memory st1 !! q = memory st !! q) /\
    objects st1 = objects st.
Proof.
  intros Hp Hp0 Hs Ht Hold.
  destruct (toNative_defined t
              (if rowNr =? UINT8_MAX then value (objects st v)
               else valueRow (objects st v) rowNr)) as [x Hx].
  { left. by eapply scalarType_not_text. }
  rewrite triggerEvent_onChange.
  set (st0 := if negb init && negb (isNull (member "dash" (objects st v)))
              then push_back v st else st).
  assert (Hobj : objects st0 = objects st) by (subst st0; by destruct (negb init && _)).
  assert (Hmem : memory st0 = memory st) by (subst st0; by destruct (negb init && _)).
  assert (Hnull : isNull (member "p" (objects st v)) = false).
  { destruct (member "p" (objects st v)) eqn:E; try done.
    exfalso. apply Hp0. rewrite <- Hp. unfold pointerOf. by rewrite E. }
  assert (Hsync : syncPointer v rowNr st0 =
                  Some (setMemory (<[pointer := Scalar t x]> (memory st)) st0)).
  { unfold syncPointer. rewrite Hobj, Hmem, Hnull, Hp, Hs, Ht, Hold.
    rewrite (proj2 (Z.eqb_neq _ _) Hp0). simpl. by rewrite Hx. }
  rewrite Hsync. simpl. eexists _, x. split; [ reflexivity | ].
  split; [ exact Hx | ]. simpl.
  split; [ apply scalarAt_insert_eq | ].
  split; [ intros q Hq; by apply lookup_insert_ne | exact Hobj ].
Qed.

(** X13.  On a node with a row-array binding, an [onChange] event for a row
    the native sequence already has overwrites the entry of that row with
    the value of the row, as the native type holds it, and leaves the other
    entries, and the length, as they are.  For a text column whose value
    for the row is no string there is no such value: [strlcpy] is handed the
    null pointer as its source, and the event has no defined result. *)
Theorem triggerEvent_row_update (varEvents : list VarEvent) (v : Var) (rowNr : Z)
    (init : bool) (st : State) (pointer : Z) (t : NativeType)
    (l : list NativeValue) :
  isArray (member "value" (objects st v)) = true ->
  isArray (member "p" (objects st v)) = false ->
  asInt (member "p" (objects st v)) = pointer ->
  pointer <> 0 ->
  vectorType (member "type" (objects st v)) = Some t ->
  0 <= rowNr < Z.of_nat (length l) ->
  rowNr <> UINT8_MAX ->
  vectorAt t pointer (memory st) = Some l ->
  match toNative t (valueRow (objects st v) rowNr) with
  | Some x =>
      exists st1 l',
        triggerEvent varEvents v onChange rowNr init st =
          Some (callVarEvent varEvents v onChange rowNr st1) /\
        vectorAt t pointer (memory st1) = Some l' /\
        length l' = length l /\
        l' !! Z.to_nat rowNr = Some x /\
        (forall i, i <> Z.to_nat rowNr -> l' !! i = l !! i) /\
        (forall q, q <> pointer -> memory st1 !! q = memory st !! q)
  | None =>
      t = VectorString /\
      asJsonString (valueRow (objects st v) rowNr) = None /\
      triggerEvent varEvents v onChange rowNr init st = None
  end.
Proof.
  intros Hval Hparr Hp Hp0 Ht Hrow Hr255 Hl.
  rewrite triggerEvent_onChange.
  set (st0 := if negb init && negb (isNull (member "dash" (objects st v)))
              then push_back v st else st).
  assert (Hobj : objects st0 = objects st) by (subst st0; by destruct (negb init && _)).
  assert (Hmem : memory st0 = memory st) by (subst st0; by destruct (negb init && _)).
  assert (Hsync : syncPointer v rowNr st0 =
            x ← toNative t (valueRow (objects st v) rowNr);
            Some (setMemory
                    (<[pointer := Vector t (<[Z.to_nat rowNr := x]> l)]> (memory st))
                    st0)).
  { unfold syncPointer, pointerOf, value. rewrite Hobj, Hmem, Hparr, Hval, Hp, Ht, Hl.
    assert (Hnull : isNull (member "p" (objects st v)) = false).
    { destruct (member "p" (objects st v)) eqn:E; done. }
    rewrite Hnull, (proj2 (Z.eqb_neq _ _) Hr255), (proj2 (Z.eqb_neq _ _) Hp0).
    simpl.
    destruct (toNative t (valueRow (objects st v) rowNr)) as [x | ]; [ simpl | done ].
    unfold grow.
    replace (Z.to_nat (rowNr + 1) - length l)%nat with 0%nat by lia.
    simpl. by rewrite app_nil_r. }
  rewrite Hsync.
  destruct (toNative t (valueRow (objects st v) rowNr)) as [x | ] eqn:Hx; simpl.
  - eexists _, _. split; [ reflexivity | ]. simpl.
    split; [ apply vectorAt_insert_eq | ].
    split; [ apply length_insert | ].
    split; [ apply list_lookup_insert_eq; lia | ].
    split; [ intros i Hi; by apply list_lookup_insert_ne | ].
    intros q Hq. by apply lookup_insert_ne.
  - apply toNative_None in Hx as [Htext Hstr]. done.
Qed.

(** X14.  An [onUI] event calls the handler for [onUI] and then, when the
    node is read-only once that handler is through, the handler for
    [onSetValue] on the state the first call leaves; the flag returned is
    that of the [onUI] call, the flag of the second call is dropped. *)
Theorem triggerEvent_onUI_readOnly (varEvents : list VarEvent) (v : Var)
    (rowNr : Z) (init : bool) (st : State) :
  triggerEvent varEvents v onUI rowNr init st =
    Some (if readOnly (objects (fst (callVarEvent varEvents v onUI rowNr st)) v)
          then fst (callVarEvent varEvents v onSetValue rowNr
                      (fst (callVarEvent varEvents v onUI rowNr st)))
          else fst (callVarEvent varEvents v onUI rowNr st),
          snd (callVarEvent varEvents v onUI rowNr st)).
Proof.
  rewrite triggerEvent_unfold. unfold triggerEvent_body, changeStep, addDeleteStep.
  simpl. destruct (callVarEvent varEvents v onUI rowNr st) as [st2 result]. simpl.
  destruct (readOnly (objects st2 v)); [ | done ].
  rewrite triggerEvent_unfold, triggerEvent_body_onSetValue. done.
Qed.

(** X15.  An event that is neither [onChange] nor [onDelete] always has a
    result and writes to the native storage only through the handlers: the
    storage is as it was when the handlers leave it alone, and so is the
    queue of changed variables. *)
Theorem triggerEvent_storage_untouched (varEvents : list VarEvent) (v : Var)
    (eventType : EventType) (rowNr : Z) (init : bool) (st : State) :
  eventType <> onChange ->
  eventType <> onDelete ->
  exists st' result,
    triggerEvent varEvents v eventType rowNr init st = Some (st', result) /\
    result = snd (callVarEvent varEvents v eventType rowNr st) /\
    (Forall (preserves memory) varEvents -> memory st' = memory st) /\
    (Forall (preserves changedVarsQueue) varEvents ->
     changedVarsQueue st' = changedVarsQueue st).
Proof.
  intros Hc Hd. rewrite triggerEvent_unfold.
  unfold triggerEvent_body, changeStep, addDeleteStep.
  rewrite (decide_False (P := eventType = onChange)) by done. simpl.
  pose proof (callVarEvent_preserves memory varEvents v eventType rowNr st) as Hm.
  pose proof (callVarEvent_preserves changedVarsQueue varEvents v eventType rowNr st) as Hq.
  destruct (callVarEvent varEvents v eventType rowNr st) as [st2 result]. simpl in *.
  destruct eventType; try done; simpl.
  - eexists _, _. split; [ reflexivity | ]. split; [ done | ]. split; assumption.
  - rewrite triggerEvent_unfold, triggerEvent_body_onSetValue. simpl.
    pose proof (callVarEvent_preserves memory varEvents v onSetValue rowNr st2) as Hm2.
    pose proof (callVarEvent_preserves changedVarsQueue varEvents v onSetValue rowNr st2)
      as Hq2.
    destruct (readOnly (objects st2 v)); simpl;
      eexists _, _; (split; [ reflexivity | ]); (split; [ done | ]); split; intros HF;
      rewrite ?Hm2, ?Hq2 by done; auto.
  - eexists _, _. split; [ reflexivity | ]. split; [ done | ]. split; assumption.
  - eexists _, _. split; [ reflexivity | ]. split; [ done | ]. split; assumption.
Qed.

(** X16.  An [onAdd] event calls the handler and then notes the row in the
    response object, under "onAdd" / "rowNr" (when "onAdd" is null or an
    object there); nothing is erased: the model and the native storage are
    as the handler leaves them, and so are the other members of the
    response object. *)
Theorem triggerEvent_onAdd_staged (varEvents : list VarEvent) (v : Var)
    (rowNr : Z) (init : bool) (st : State) :
  exists st',
    triggerEvent varEvents v onAdd rowNr init st =
      Some (st', snd (callVarEvent varEvents v onAdd rowNr st)) /\
    objects st' = objects (fst (callVarEvent varEvents v onAdd rowNr st)) /\
    memory st' = memory (fst (callVarEvent varEvents v onAdd rowNr st)) /\
    (forall k, k <> "onAdd" ->
       member k (responseObject st') =
       member k (responseObject (fst (callVarEvent varEvents v onAdd rowNr st)))) /\
    (isNull (member "onAdd" (responseObject (fst (callVarEvent varEvents v onAdd rowNr st))))
     || isObject (member "onAdd"
                    (responseObject (fst (callVarEvent varEvents v onAdd rowNr st))))
       = true ->
     memberOf "rowNr" (member "onAdd" (responseObject st')) = JInt rowNr).
Proof.
  rewrite triggerEvent_unfold. unfold triggerEvent_body, changeStep, addDeleteStep.
  simpl. destruct (callVarEvent varEvents v onAdd rowNr st) as [st2 result]. simpl.
  eexists. split; [ reflexivity | ]. simpl.
  split; [ done | ]. split; [ done | ]. split.
  - intros k Hk. apply setMember2_frame. congruence.
  - apply setMember2_staged.
Qed.

(** ** The sweeps, once more *)

Lemma preDetails_child_idem varChild :
  preDetails_child (preDetails_child varChild) = preDetails_child varChild.
Proof.
  destruct varChild as [ | | | | | child ]; try done.
  unfold preDetails_child at 2.
  destruct (0 <=? order child) eqn:E; [ | unfold preDetails_child; by rewrite E ].
  unfold preDetails_child. apply Z.leb_le in E.
  assert (Ho : order (setOrder (- order child) child) = - order child).
  { apply order_setOrder. pose proof (order_range child) as H.
    unfold INT_MIN, INT_MAX in *. lia. }
  rewrite Ho, (proj2 (Z.leb_le _ _) E).
  destruct (0 <=? - order child) eqn:E'; [ | done ].
  apply Z.leb_le in E'. f_equal. unfold setOrder. rewrite setMember_setMember.
  do 2 f_equal. lia.
Qed.

(** X17.  [preDetails] twice is [preDetails] once: a child made pending
    stays pending, its order is not negated back. *)
Theorem preDetails_idempotent (var : JsonObject) :
  preDetails (preDetails var) = preDetails var.
Proof.
  unfold preDetails at 2.
  destruct (children var) as [ | | | | l | ] eqn:Ec;
    try (unfold preDetails; by rewrite Ec).
  unfold preDetails. rewrite Ec, children_setMember, setMember_setMember.
  do 2 f_equal. rewrite map_map. apply map_ext. apply preDetails_child_idem.
Qed.

Lemma omap_cons {A B} (f : A -> option B) (x : A) (l : list A) :
  omap f (x :: l) = match f x with Some y => y :: omap f l | None => omap f l end.
Proof. reflexivity. Qed.

(** X18.  The sweep that follows the declarations must run once: run again
    with no declaration in between, it takes the variables it has just
    confirmed for obsolete and removes every one of them; only the entries
    that are no object are left.  (No variable of the array has the order
    [INT_MIN], whose negation overflows.) *)
Theorem cleanUpModel_second_sweep (parentId parentId' : Json) (l : list Json) :
  Forall (fun v => INT_MIN < asInt (memberOf "o" v)) l ->
  cleanUpModel false true false parentId'
    (cleanUpModel false true false parentId (JArr l)) =
  JArr (List.filter (fun v => negb (isObject v)) l).
Proof.
  intros Hmin. rewrite !cleanUpModel_entries. f_equal.
  induction Hmin as [ | v l Hv _ IH ]; [ done | ].
  rewrite (omap_cons _ v l).
  destruct (sweep_entry false true v) as [v' | ] eqn:Es.
  - rewrite omap_cons.
    destruct v as [ | b | z | s | l' | var ];
      try (injection Es as <-; simpl; by rewrite IH).
    change (INT_MIN < order var) in Hv.
    simpl in Es. unfold sweep_var in Es.
    destruct (obsolete var) eqn:Eo; [ done | ]. injection Es as <-.
    simpl. unfold sweep_var.
    assert (Hob : obsolete (setOrder (negate (order var))
                    (alterMember "n" (cleanUpModel false true false (member "id" var)) var))
                  = true).
    { unfold obsolete. apply orb_true_iff. right. apply Z.leb_le.
      unfold obsolete in Eo. apply orb_false_iff in Eo as [_ Eo].
      apply Z.leb_gt in Eo. rewrite order_negate by lia. lia. }
    rewrite Hob. exact IH.
  - by destruct v.
Qed.

(** X19.  After [loop20ms] the sweep is marked done and no write is due,
    and a further call changes nothing; the model is left as it was when
    the sweep was done already and no write was due, and a call that has no
    write to do leaves the file alone. *)
Theorem loop20ms_settles (showObsolete : bool) (mdl : SysModModel) :
  cleanUpModelDone (loop20ms showObsolete mdl) = true /\
  doWriteModel (loop20ms showObsolete mdl) = false /\
  (forall showObsolete',
     loop20ms showObsolete' (loop20ms showObsolete mdl) = loop20ms showObsolete mdl) /\
  (doWriteModel mdl = false ->
   modelFile (loop20ms showObsolete mdl) = modelFile mdl /\
   (cleanUpModelDone mdl = true -> model (loop20ms showObsolete mdl) = model mdl)).
Proof.
  assert (H : cleanUpModelDone (loop20ms showObsolete mdl) = true /\
              doWriteModel (loop20ms showObsolete mdl) = false).
  { unfold loop20ms. destruct mdl as [m [ | ] [ | ] f]; done. }
  destruct H as [Hdone Hwrite]. split; [ exact Hdone | ]. split; [ exact Hwrite | ].
  split.
  - intros showObsolete'. unfold loop20ms at 1. rewrite Hdone. simpl.
    rewrite Hwrite. done.
  - intros Hw. unfold loop20ms. destruct mdl as [m [ | ] w f]; simpl in *; subst w; done.
Qed.

Lemma onMember_removeMember_ne {A} key key' (f : Json -> A) d obj :
  key <> key' -> onMember key' f d (removeMember key obj) = onMember key' f d obj.
Proof.
  intros Hne. induction obj as [ | [k w] obj IH ]; simpl; [ done | ].
  destruct (String.eqb k key) eqn:E; simpl.
  - apply String.eqb_eq in E. subst k.
    apply String.eqb_neq in Hne. by rewrite Hne.
  - destruct (String.eqb k key'); [ done | exact IH ].
Qed.

Lemma allVars_cleanUpModel_ro (showObsolete oPos : bool) :
  forall vars parentId,
    allVars (fun var => bool_decide (NoDup var.*1)) vars = true ->
    allVars (fun var => negb (readOnly var) || isNull (member "value" var))
      (cleanUpModel showObsolete oPos true parentId vars) = true.
Proof.
  intros vars.
  induction vars as [ j Hj | l IH ] using Json_vars_ind; intros parentId Hnd.
  - by destruct j.
  - rewrite cleanUpModel_ro_entries. simpl in Hnd |- *.
    induction IH as [ | v l Hv _ IHl ]; [ done | ].
    simpl in Hnd. apply andb_true_iff in Hnd as [Hnd Hrest].
    specialize (IHl Hrest).
    destruct v as [ | b | z | s | l' | var ]; try exact IHl.
    apply andb_true_iff in Hnd as [Hkeys Hn]. apply bool_decide_eq_true_1 in Hkeys.
    simpl. rewrite IHl, andb_true_r.
    set (f := cleanUpModel showObsolete oPos true (member "id" var)).
    assert (Hro : readOnly (alterMember "n" f var) = readOnly var)
      by (unfold readOnly; by rewrite member_alterMember_ne).
    assert (Hsub : onMember "n"
                     (fun w => allVars
                        (fun var => negb (readOnly var) || isNull (member "value" var))
                        (f w)) true var = true).
    { apply (onMember_Forall_impl "n" _
               (allVars (fun var => bool_decide (NoDup var.*1)))
               (fun w => forall parentId,
                  allVars (fun var => bool_decide (NoDup var.*1)) w = true ->
                  allVars (fun var => negb (readOnly var) || isNull (member "value" var))
                    (cleanUpModel showObsolete oPos true parentId w) = true));
        [ exact Hv | | exact Hn ].
      intros w Hw Hg. by apply Hw. }
    unfold cleanValue. rewrite Hro. simpl.
    destruct (eqStr parentId "instances" || readOnly var) eqn:Ec.
    + rewrite member_removeMember_eq by (by rewrite alterMember_keys).
      simpl. rewrite orb_true_r. simpl.
      rewrite onMember_removeMember_ne by done.
      by rewrite onMember_alterMember.
    + apply orb_false_iff in Ec as [_ Ec]. rewrite Hro, Ec. simpl.
      by rewrite onMember_alterMember.
Qed.

(** X20.  Saving strips the model itself, not only the file: after a call
    of [loop20ms] that writes, no read-only variable of the model, at any
    depth, has a value left.  (The members of a variable have distinct
    keys.) *)
Theorem loop20ms_strips_live_model (showObsolete : bool) (mdl : SysModModel) :
  cleanUpModelDone mdl = true ->
  doWriteModel mdl = true ->
  allVars (fun var => bool_decide (NoDup var.*1)) (model mdl) = true ->
  model (loop20ms showObsolete mdl) =
    cleanUpModel showObsolete false true JNull (model mdl) /\
  allVars (fun var => negb (readOnly var) || isNull (member "value" var))
    (model (loop20ms showObsolete mdl)) = true.
Proof.
  intros Hdone Hwrite Hnd.
  assert (Hm : model (loop20ms showObsolete mdl) =
               cleanUpModel showObsolete false true JNull (model mdl)).
  { unfold loop20ms. rewrite Hdone. simpl. by rewrite Hwrite. }
  split; [ exact Hm | ]. rewrite Hm. by apply allVars_cleanUpModel_ro.
Qed.

(** ** The options of a select, found *)

Lemma length_substring_le (n : nat) (s : string) :
  (String.length (String.substring 0 n s) <= n)%nat.
Proof.
  revert s. induction n as [ | n IH ]; intros [ | c s ]; simpl; try lia.
  specialize (IH s). lia.
Qed.

Lemma optionsOf_clearOptions v st :
  (forall inner,
     member (pidid (objects st v)) (responseObject st) = JObj inner -> NoDup inner.*1) ->
  optionsOf v (clearOptions v st) = JNull.
Proof.
  intros Hnd. unfold optionsOf, clearOptions, removeMember2. simpl.
  destruct (member (pidid (objects st v)) (responseObject st)) as [ | | | | | inner ] eqn:E;
    simpl; rewrite ?E; try done.
  rewrite member_setMember_eq. simpl. apply member_removeMember_eq. by apply Hnd.
Qed.

(** X21.  When the options of a select are an array (the function holds
    them as a [JsonArray]) and its value is the position of an option that
    lies in a group, [findOptionsText] answers the name of the outermost
    group and the text of the option, each cut to the 31 characters its
    buffer holds.  The options the handler has listed stay in the response
    object when there were options before the call, and are taken out again
    when there were none. *)
Theorem findOptionsText_in_group (varEvents : list VarEvent) (v : Var) (value : Z)
    (st st1 : State) (options : Json) (group text : string) :
  getOptions varEvents v st = Some (st1, options) ->
  isArray options = true ->
  0 <= value <= UINT8_MAX ->
  optionsList options None !! Z.to_nat value = Some (Some group, JStr text) ->
  exists st' group' text',
    findOptionsText varEvents v value st = Some (st', group', text') /\
    group' = String.substring 0 31 group /\
    text' = String.substring 0 31 text /\
    (String.length group' <= 31)%nat /\
    (String.length text' <= 31)%nat /\
    objects st' = objects st1 /\
    memory st' = memory st1 /\
    (isNull (optionsOf v st) = false -> st' = st1) /\
    (isNull (optionsOf v st) = true ->
     (forall inner,
        member (pidid (objects st1 v)) (responseObject st1) = JObj inner ->
        NoDup inner.*1) ->
     optionsOf v st' = JNull).
Proof.
  intros Hget _ Hv Hfound.
  rewrite (findOptionsText_found _ _ _ _ _ _ _ _ Hget Hv Hfound).
  eexists _, _, _. split; [ reflexivity | ].
  split; [ done | ]. split; [ done | ].
  split; [ apply length_substring_le | ]. split; [ apply length_substring_le | ].
  destruct (isNull (optionsOf v st)); simpl.
  - split; [ done | ]. split; [ done | ]. split; [ done | ].
    intros _. apply optionsOf_clearOptions.
  - done.
Qed.

Lemma setMember_keys key v obj :
  (setMember key v obj).*1 =
  if bool_decide (key ∈ obj.*1) then obj.*1 else (obj.*1 ++ [key])%list.
Proof.
  induction obj as [ | [k w] obj IH ]; [ done | ].
  cbn [setMember]. destruct (String.eqb k key) eqn:E.
  - apply String.eqb_eq in E. subst k.
    rewrite bool_decide_eq_true_2; [ done | left ].
  - apply String.eqb_neq in E. rewrite !fmap_cons, IH. cbn [fst].
    destruct (bool_decide (key ∈ obj.*1)) eqn:B.
    + apply bool_decide_eq_true_1 in B.
      rewrite bool_decide_eq_true_2; [ done | by right ].
    + apply bool_decide_eq_false_1 in B.
      rewrite bool_decide_eq_false_2; [ done | ].
      intros [ ? | ? ]%elem_of_cons; [ congruence | done ].
Qed.

Lemma setMember_NoDup key v obj : NoDup obj.*1 -> NoDup (setMember key v obj).*1.
Proof.
  intros Hnd. rewrite setMember_keys.
  destruct (bool_decide (key ∈ obj.*1)) eqn:B; [ done | ].
  apply bool_decide_eq_false_1 in B.
  apply NoDup_app. split; [ done | ]. split; [ | apply NoDup_singleton ].
  intros k Hk [= ->]%list_elem_of_singleton. done.
Qed.

(** X22.  [setOptions] leaves an empty list of options for the variable in
    the response object, whatever options were there (the member of the
    variable being null or an object), and writes to no other member of the
    response object; [clearOptions] after it leaves the variable without
    options. *)
Theorem setOptions_clearOptions (v : Var) (st : State) :
  isNull (member (pidid (objects st v)) (responseObject st))
  || isObject (member (pidid (objects st v)) (responseObject st)) = true ->
  optionsOf v (setOptions v st) = JArr [] /\
  (forall k, k <> pidid (objects st v) ->
     member k (responseObject (setOptions v st)) = member k (responseObject st)) /\
  ((forall inner,
      member (pidid (objects st v)) (responseObject st) = JObj inner -> NoDup inner.*1) ->
   optionsOf v (clearOptions v (setOptions v st)) = JNull).
Proof.
  intros Hr. split; [ | split ].
  - unfold optionsOf, setOptions. simpl. by apply setMember2_staged.
  - intros k Hk. unfold setOptions. simpl. apply setMember2_frame. congruence.
  - intros Hnd. apply optionsOf_clearOptions.
    unfold setOptions. simpl. unfold setMember2.
    destruct (member (pidid (objects st v)) (responseObject st))
      as [ | | | | | inner0 ] eqn:E; try done; intros inner;
      rewrite member_setMember_eq; intros [= <-].
    + apply NoDup_singleton.
    + apply setMember_NoDup. by apply Hnd.
Qed.

(** ** The reset reasons *)

(** X23.  [resetCode2Info] has a text of its own for each of the codes 0
    to 23 and answers "unknown" for every other code, and for no code of
    that range. *)
Theorem resetCode2Info_unknown (reason : Z) :
  resetCode2Info reason = "unknown" <-> reason < 0 \/ 23 < reason.
Proof.
  split.
  - intros H. destruct (decide (0 <= reason <= 23)) as [Hr | Hr]; [ exfalso | lia ].
    assert (Hc : reason = 0 \/ reason = 1 \/ reason = 2 \/ reason = 3 \/ reason = 4 \/
                 reason = 5 \/ reason = 6 \/ reason = 7 \/ reason = 8 \/ reason = 9 \/
                 reason = 10 \/ reason = 11 \/ reason = 12 \/ reason = 13 \/
                 reason = 14 \/ reason = 15 \/ reason = 16 \/ reason = 17 \/
                 reason = 18 \/ reason = 19 \/ reason = 20 \/ reason = 21 \/
                 reason = 22 \/ reason = 23) by lia.
    repeat (destruct Hc as [ -> | Hc ]; [ discriminate H | ]).
    subst reason. discriminate H.
  - intros Hr. destruct reason as [ | p | p ]; [ lia | | done ].
    destruct Hr as [ Hr | Hr ]; [ lia | ].
    do 5 (destruct p as [ p | p | ]; try lia; try reflexivity).
Qed.

(** X24.  The select of the reset reason lists its options so that the
    reset code is the position of its text: on the options
    [addResetReasonsSelect] adds to an empty array, the search of
    [findOptionsTextRec] for a code from 1 to 23 finds the text
    [sysTools_reset2String] makes of that code, outside any group, for the
    code 0 it finds the text of its own, and for a code above 23 it finds
    nothing and leaves the names null. *)
Theorem addResetReasonsSelect_positions (code : Z) :
  0 <= code <= UINT8_MAX ->
  findOptionsTextRec (addResetReasonsSelect (JArr [])) code None (mkLookup 0 None None) =
    if code =? 0 then (true, mkLookup 0 None (Some "NO_MEAN (0)"))
    else if code <=? 23
         then (true, mkLookup code None (Some (sysTools_reset2String code)))
         else (false, mkLookup 24 None None).
Proof.
  intros Hc. unfold UINT8_MAX in Hc.
  rewrite findOptionsTextRec_positional by (unfold UINT8_MAX; lia).
  unfold answer. rewrite Z.sub_0_r.
  destruct (decide (code <= 23)) as [Hr | Hr].
  - assert (Hcases : code = 0 \/ code = 1 \/ code = 2 \/ code = 3 \/ code = 4 \/
                     code = 5 \/ code = 6 \/ code = 7 \/ code = 8 \/ code = 9 \/
                     code = 10 \/ code = 11 \/ code = 12 \/ code = 13 \/
                     code = 14 \/ code = 15 \/ code = 16 \/ code = 17 \/
                     code = 18 \/ code = 19 \/ code = 20 \/ code = 21 \/
                     code = 22 \/ code = 23) by lia.
    repeat (destruct Hcases as [ -> | Hcases ]; [ vm_compute; reflexivity | ]).
    subst code. vm_compute. reflexivity.
  - rewrite (proj2 (lookup_ge_None _ _)) by (vm_compute length; lia).
    rewrite (proj2 (Z.eqb_neq _ _)) by lia.
    rewrite (proj2 (Z.leb_gt _ _)) by lia. done.
Qed.

(** X25.  The select of the restart reason lists its options so that the
    restart code is the position of its text: on the options
    [addRestartReasonsSelect] adds to an empty array, the search of
    [findOptionsTextRec] for a code from 1 to 10 finds the text
    [sysTools_restart2String] makes of that code, which begins with the
    code in brackets, for the code 0 it finds the text of its own, and for a
    code above 10 it finds nothing. *)
Theorem addRestartReasonsSelect_positions (code : Z) :
  0 <= code <= UINT8_MAX ->
  findOptionsTextRec (addRestartReasonsSelect (JArr [])) code None (mkLookup 0 None None) =
    if code =? 0 then (true, mkLookup 0 None (Some "(0) ESP_RST_UNKNOWN"))
    else if code <=? 10
         then (true, mkLookup code None
                       (Some ("(" +:+ pretty code +:+ ") " +:+ restartCode2Info code)))
         else (false, mkLookup 11 None None).
Proof.
  intros Hc. unfold UINT8_MAX in Hc.
  rewrite findOptionsTextRec_positional by (unfold UINT8_MAX; lia).
  unfold answer. rewrite Z.sub_0_r.
  destruct (decide (code <= 10)) as [Hr | Hr].
  - assert (Hcases : code = 0 \/ code = 1 \/ code = 2 \/ code = 3 \/ code = 4 \/
                     code = 5 \/ code = 6 \/ code = 7 \/ code = 8 \/ code = 9 \/
                     code = 10) by lia.
    repeat (destruct Hcases as [ -> | Hcases ]; [ reflexivity | ]).
    subst code. reflexivity.
  - rewrite (proj2 (lookup_ge_None _ _)) by (simpl; lia).
    rewrite (proj2 (Z.eqb_neq _ _)) by lia.
    rewrite (proj2 (Z.leb_gt _ _)) by lia. done.
Qed.

(** X26.  [sysTools_normal_startup] answers true exactly for the restart
    codes [restartCode2Info] explains as a power-on event or as a restart by
    software (the enumerators being distinct). *)
Theorem sysTools_normal_startup_texts (restartCode : Z) :
  NoDup [ ESP_RST_UNKNOWN rst; ESP_RST_POWERON rst; ESP_RST_EXT rst; ESP_RST_SW rst;
          ESP_RST_PANIC rst; ESP_RST_INT_WDT rst; ESP_RST_TASK_WDT rst; ESP_RST_WDT rst;
          ESP_RST_DEEPSLEEP rst; ESP_RST_BROWNOUT rst; ESP_RST_SDIO rst ] ->
  sysTools_normal_startup restartCode = true <->
  restartCode2Info restartCode = "power-on event" \/
  restartCode2Info restartCode = "SW restart by esp_restart()".
Proof.
  intros Hnd.
  assert (H01 : ESP_RST_UNKNOWN rst <> ESP_RST_POWERON rst).
  { intros E. apply NoDup_cons in Hnd as [Hn _]. apply Hn. rewrite E. set_solver. }
  assert (H03 : ESP_RST_UNKNOWN rst <> ESP_RST_SW rst).
  { intros E. apply NoDup_cons in Hnd as [Hn _]. apply Hn. rewrite E. set_solver. }
  assert (H23 : ESP_RST_EXT rst <> ESP_RST_SW rst).
  { intros E. apply NoDup_cons in Hnd as [_ Hnd]. apply NoDup_cons in Hnd as [_ Hnd].
    apply NoDup_cons in Hnd as [Hn _]. apply Hn. rewrite E. set_solver. }
  assert (H13 : ESP_RST_POWERON rst <> ESP_RST_SW rst).
  { intros E. apply NoDup_cons in Hnd as [_ Hnd].
    apply NoDup_cons in Hnd as [Hn _]. apply Hn. rewrite E. set_solver. }
  unfold sysTools_normal_startup, restartCode2Info.
  destruct (restartCode =? ESP_RST_UNKNOWN rst) eqn:E0.
  { apply Z.eqb_eq in E0. subst restartCode.
    rewrite (proj2 (Z.eqb_neq _ _) H01), (proj2 (Z.eqb_neq _ _) H03).
    split; [ done | intros [ ? | ? ]; done ]. }
  destruct (restartCode =? ESP_RST_POWERON rst) eqn:E1; [ split; [ by left | done ] | ].
  destruct (restartCode =? ESP_RST_EXT rst) eqn:E2.
  { apply Z.eqb_eq in E2. subst restartCode.
    rewrite (proj2 (Z.eqb_neq _ _) H23).
    split; [ done | intros [ ? | ? ]; done ]. }
  destruct (restartCode =? ESP_RST_SW rst) eqn:E3; [ split; [ by right | done ] | ].
  simpl. split; [ done | ].
  repeat case_match; intros [ ? | ? ]; done.
Qed.

End Model.

(** * The properties on the example inputs *)

(** C1 as stated does not hold.  In the sweep after the declarations the
    variable of order -1 stays and the one of order 2 goes, where the claim
    removes the first and keeps the second; and in the other mode of the
    sweep, which removes the variables of order below 0, [showObsolete]
    suppresses nothing. *)
Lemma cleanUpModel_not_claimed_sweep :
  ids (cleanUpModel example_extern false true false JNull example_model) = [JStr "declared"] /\
  ids (claimed_sweep example_extern false example_model) = [JStr "restored"] /\
  ids (cleanUpModel example_extern true false false JNull example_model) = [JStr "restored"] /\
  ids (claimed_sweep example_extern true example_model) = [JStr "declared"; JStr "restored"].
Proof. repeat split; reflexivity. Qed.

(** C2 as stated does not hold: after [preDetails] the detail of order 0 is
    not pending, and the child of a detail, of order 3, is as it was. *)
Lemma preDetails_order_zero_not_pending :
  children (preDetails example_extern example_details) =
    JArr [ JObj [ ("id", JStr "width"); ("o", JInt (-2));
                  ("n", JArr [JObj [("id", JStr "unit"); ("o", JInt 3)]]) ];
           JObj [("id", JStr "height"); ("o", JInt 0)] ] /\
  allPending example_extern (children (preDetails example_extern example_details)) = false /\
  allPending example_extern (JArr [JObj [("id", JStr "unit"); ("o", JInt 3)]]) = false.
Proof. repeat split; reflexivity. Qed.

Lemma preDetails_negates_children_witness :
  children example_details =
    JArr [ JObj [ ("id", JStr "width"); ("o", JInt 2);
                  ("n", JArr [JObj [("id", JStr "unit"); ("o", JInt 3)]]) ];
           JObj [("id", JStr "height"); ("o", JInt 0)] ] /\
  children (preDetails example_extern example_details) =
    JArr [ JObj [ ("id", JStr "width"); ("o", JInt (-2));
                  ("n", JArr [JObj [("id", JStr "unit"); ("o", JInt 3)]]) ];
           JObj [("id", JStr "height"); ("o", JInt 0)] ].
Proof.
  split; [ reflexivity | ].
  exact (proj1 (preDetails_negates_children example_extern example_details _ eq_refl)).
Defined.

Lemma triggerEvent_row_growth_witness :
  vectorAt uint16_t 1000 (memory example_column) = Some [] /\
  (exists st',
     triggerEvent example_extern [] 0%nat onChange 3 false example_column = Some (st', false) /\
     vectorAt uint16_t 1000 (memory st') =
       Some [NInt UINT16_MAX; NInt UINT16_MAX; NInt UINT16_MAX; NInt 7]) /\
  vectorAt VectorString 2000 (memory example_text_short) = Some [NChars "a"] /\
  valueRow (objects example_text_short 0%nat) 1 = JNull /\
  triggerEvent example_extern [] 0%nat onChange 1 false example_text_short = None.
Proof.
  split; [ reflexivity | ]. split.
  - destruct (triggerEvent_row_growth example_extern [] 0%nat 3 false example_column
                1000 uint16_t [])
      as (st1 & l' & Hrun & Hvec & Hl' & _);
      try reflexivity.
    + discriminate.
    + split; [ vm_compute; discriminate | reflexivity ].
    + simpl. lia.
    + exists st1. split; [ | rewrite Hvec, Hl'; reflexivity ].
      rewrite Hrun. f_equal. apply callVarEvent_out_of_range.
      apply (asIntegral_range example_extern 0 SIZE_MAX); vm_compute; discriminate.
  - split; [ reflexivity | ]. split; [ reflexivity | ].
    destruct (triggerEvent_row_growth example_extern [] 0%nat 1 false example_text_short
                2000 VectorString [NChars "a"])
      as (_ & _ & Hnone);
      [ reflexivity | reflexivity | reflexivity | discriminate | reflexivity
      | split; [ vm_compute; discriminate | reflexivity ]
      | reflexivity | simpl; lia | exact Hnone ].
Defined.

Lemma triggerEvent_onDelete_cascade_witness :
  exists st',
    triggerEvent example_extern [] 0%nat onDelete 1 false example_table = Some (st', false) /\
    vectorAt uint16_t 1000 (memory st') = Some [NInt 10; NInt 12] /\
    vectorAt VectorString 2000 (memory st') = Some [NChars "a"; NChars "c"] /\
    memberOf "rowNr" (member "onDelete" (responseObject st')) = JInt 1.
Proof.
  destruct (triggerEvent_onDelete_cascade example_extern [] 0%nat 1 false
              example_table example_table false
              [ JObj [ ("id", JStr "size"); ("type", JStr "number");
                       ("value", JArr [JInt 10; JInt 11; JInt 12]); ("p", JInt 1000) ];
                JObj [ ("id", JStr "name"); ("type", JStr "text");
                       ("value", JArr [JStr "a"; JStr "b"; JStr "c"]); ("p", JInt 2000) ] ])
    as (st' & Hrun & Hvec & _ & Hresp);
    try reflexivity.
  - split; vm_compute; discriminate.
  - apply (bool_decide_unpack _). vm_compute. exact I.
  - intros p t Hin.
    change (omap (columnBinding example_extern 1) _)
      with [(1000, uint16_t); (2000, VectorString)] in Hin.
    apply elem_of_cons in Hin as [ [= -> ->] | Hin ]; [ vm_compute; eauto | ].
    apply elem_of_cons in Hin as [ [= -> ->] | Hin ]; [ vm_compute; eauto | ].
    by apply elem_of_nil in Hin.
  - exists st'. split; [ exact Hrun | ].
    split; [ apply (Hvec 1000 uint16_t [NInt 10; NInt 11; NInt 12]); [ left | reflexivity ] | ].
    split; [ apply (Hvec 2000 VectorString [NChars "a"; NChars "b"; NChars "c"]);
             [ right; left | reflexivity ] | ].
    exact Hresp.
Defined.

(** C5 as stated does not hold: the value of a read-only variable is not
    written, while its "id" and "type" are. *)
Lemma loop20ms_strips_read_only_value :
  modelFile (loop20ms example_extern false example_saved) =
    Some (JArr [ JObj [ ("id", JStr "upTime"); ("type", JStr "text"); ("ro", JBool true) ] ]) /\
  memberOf "value" (element (model example_saved) 0) = JStr "12s".
Proof. split; reflexivity. Qed.

(** C6 as stated does not hold: a variable without the member "dash" is
    not queued by its [onChange] event. *)
Lemma triggerEvent_onChange_without_dash :
  (fun r => (changedVarsQueue (fst r), snd r))
    <$> triggerEvent example_extern [] 0%nat onChange UINT8_MAX false example_plain =
  Some ([], false).
Proof. reflexivity. Qed.


(** C8 as stated does not hold: the first child has no array value, the
    second has three rows, and [rows] calls the visitor not once. *)
Lemma rows_first_child_only :
  rows (Some record_call) example_rows [] = [] /\
  claimed_rowCount example_rows = 3%nat.
Proof. split; reflexivity. Qed.

(** C9 at the failing input: the value 5 of a select of two options. *)
Lemma findOptionsText_not_found_witness :
  Z.of_nat (length (optionsList
                      (JArr [JObj [("Panels", JArr [JStr "16x16"; JStr "32x8"])]]) None)) <= 5 /\
  findOptionsTextRec (JArr [JObj [("Panels", JArr [JStr "16x16"; JStr "32x8"])]]) 5 None
    (mkLookup 0 None None) = (false, mkLookup 2 None None) /\
  findOptionsText example_extern example_onUI 0%nat 5 example_select = None.
Proof.
  split; [ vm_compute; discriminate | ].
  eapply (findOptionsText_not_found example_extern example_onUI 0%nat 5 example_select).
  - reflexivity.
  - split; vm_compute; discriminate.
Defined.

(** C10 as stated does not hold: a null row comes back as null from an
    array that is not empty; and with the row context at the sentinel, row
    255 of an array of 256 rows is inside the array, yet the first row comes
    back. *)
Lemma getValue_null_row_and_sentinel :
  getValue UINT8_MAX example_null_row 0 = JNull /\
  size (valArray example_null_row) = 1 /\
  getValue UINT8_MAX example_long UINT8_MAX = JInt 0 /\
  element (valArray example_long) UINT8_MAX = JInt 7 /\
  size (valArray example_long) = 256.
Proof. repeat split; reflexivity. Qed.

Lemma getValue_array_witness :
  member "value" example_null_row = JArr [JNull] /\
  [JNull] !! Z.to_nat 0 = Some (getValue UINT8_MAX example_null_row 0).
Proof.
  split; [ reflexivity | ].
  destruct (getValue_array UINT8_MAX example_null_row [JNull] 0 eq_refl) as [Hrow _].
  - split; vm_compute; discriminate.
  - split; vm_compute; discriminate.
  - apply Hrow; [ discriminate | reflexivity ].
Defined.

(** ** The further properties on example inputs *)

Lemma removeValuesForRow_columns_witness :
  children example_rows =
    JArr [ JObj [("id", JStr "title"); ("value", JStr "all")];
           JObj [("id", JStr "name"); ("value", JArr [JStr "a"; JStr "b"; JStr "c"])] ] /\
  exists l',
    children (removeValuesForRow 1 example_rows) = JArr l' /\
    l' !! 0%nat = Some (JObj [("id", JStr "title"); ("value", JStr "all")]) /\
    exists child',
      l' !! 1%nat = Some (JObj child') /\
      member "value" child' = JArr [JStr "a"; JStr "c"].
Proof.
  split; [ reflexivity | ].
  destruct (removeValuesForRow_columns 1 example_rows _ eq_refl)
    as (l' & Hc & _ & _ & Hl).
  exists l'. split; [ exact Hc | ]. split.
  - exact (proj2 (Hl 0%nat _ eq_refl) eq_refl).
  - destruct (proj1 (Hl 1%nat _ eq_refl) _ _ eq_refl eq_refl)
      as (child' & Hi & Hv & _).
    exists child'. split; [ exact Hi | exact Hv ].
Defined.

Lemma rows_after_removeValuesForRow_witness :
  valArray (firstChild (objects example_table 0%nat)) = JArr [JInt 10; JInt 11; JInt 12] /\
  rows (Some record_call) (removeValuesForRow 1 (objects example_table 0%nat)) [] =
    [ (removeValuesForRow 1 (objects example_table 0%nat), 0);
      (removeValuesForRow 1 (objects example_table 0%nat), 1) ].
Proof.
  split; [ reflexivity | ].
  apply (rows_after_removeValuesForRow (objects example_table 0%nat)
           [JInt 10; JInt 11; JInt 12] 1 eq_refl).
  - split; vm_compute; [ discriminate | reflexivity ].
  - simpl. lia.
Defined.

Lemma postDetails_no_pending_witness :
  0 <= order example_extern example_pending /\
  exists l',
    children (fst (postDetails example_extern UINT8_MAX example_pending [])) = JArr l' /\
    (length l' <= 3)%nat.
Proof.
  split; [ vm_compute; discriminate | ].
  destruct (postDetails_no_pending example_extern UINT8_MAX example_pending [] _
              ltac:(vm_compute; discriminate) eq_refl) as (l' & Hc & Hlen & _).
  - repeat constructor.
  - exists l'. split; [ exact Hc | exact Hlen ].
Defined.

Lemma postDetails_scalar_children_witness :
  0 <= order example_extern example_scalars /\
  children (fst (postDetails example_extern UINT8_MAX example_scalars [])) =
    JArr [JObj [("id", JStr "width"); ("o", JInt 2)]].
Proof.
  split; [ vm_compute; discriminate | ].
  refine (proj1 (postDetails_scalar_children example_extern UINT8_MAX example_scalars [] _
                   _ eq_refl _)).
  - vm_compute. discriminate.
  - repeat constructor.
Defined.

Lemma preDetails_postDetails_evicts_witness :
  0 <= order example_extern example_scalars /\
  children (fst (postDetails example_extern UINT8_MAX
                   (preDetails example_extern example_scalars) [])) = JArr [].
Proof.
  split; [ vm_compute; discriminate | ].
  apply (preDetails_postDetails_evicts example_extern UINT8_MAX example_scalars [] _
           ltac:(vm_compute; discriminate) eq_refl).
  repeat constructor; eexists; (split; [ reflexivity | ]);
    (split; [ reflexivity | vm_compute; discriminate ]).
Defined.

Lemma postDetails_nulls_row_witness :
  0 <= order example_extern example_pending /\
  exists l' child',
    children (fst (postDetails example_extern 1 example_pending [])) = JArr l' /\
    JObj child' ∈ l' /\
    member "value" child' = JArr [JInt 1; JNull] /\
    order example_extern child' = 4.
Proof.
  split; [ vm_compute; discriminate | ].
  destruct (postDetails_nulls_row example_extern 1 example_pending [] _
              [("id", JStr "rows"); ("o", JInt (-4)); ("value", JArr [JInt 1; JNull])]
              [JInt 1; JNull]
              ltac:(vm_compute; discriminate) eq_refl)
    as (l' & Hc & child' & Hin & Hv & Ho & _).
  - split; vm_compute; [ discriminate | reflexivity ].
  - apply elem_of_cons. right. apply elem_of_cons. right. apply elem_of_cons. by left.
  - reflexivity.
  - split; vm_compute; reflexivity.
  - exists l', child'. split; [ exact Hc | ]. split; [ exact Hin | ].
    split; [ exact Hv | exact Ho ].
Defined.

Lemma postDetails_response_witness :
  isNull (member "details" []) || isObject (member "details" []) = true /\
  memberOf "var" (member "details" (snd (postDetails example_extern 1 example_pending []))) =
    JObj (fst (postDetails example_extern 1 example_pending [])) /\
  memberOf "rowNr" (member "details" (snd (postDetails example_extern 1 example_pending [])))
    = JInt 1.
Proof.
  split; [ reflexivity | ].
  destruct (postDetails_response example_extern 1 example_pending [] eq_refl)
    as (Hvar & _ & Hrow).
  split; [ exact Hvar | ].
  eapply (Hrow _ [("id", JStr "rows"); ("o", JInt (-4)); ("value", JArr [JInt 1; JNull])]).
  - vm_compute. discriminate.
  - discriminate.
  - reflexivity.
  - apply elem_of_cons. right. apply elem_of_cons. right. apply elem_of_cons. by left.
  - reflexivity.
Defined.

Lemma triggerEvent_onChange_no_write_witness :
  isNull (member "p" (objects example_plain 0%nat)) = true /\
  triggerEvent example_extern [] 0%nat onChange UINT8_MAX false example_plain =
    Some (example_plain, false).
Proof.
  split; [ reflexivity | ].
  exact (triggerEvent_onChange_no_write example_extern [] 0%nat UINT8_MAX false
           example_plain (or_introl eq_refl)).
Defined.

Lemma triggerEvent_onChange_scalar_witness :
  scalarAt uint8_t 3000 (memory example_cell) = Some (NInt 0) /\
  exists st1,
    triggerEvent example_extern [] 0%nat onChange UINT8_MAX false example_cell =
      Some (callVarEvent example_extern [] 0%nat onChange UINT8_MAX st1) /\
    scalarAt uint8_t 3000 (memory st1) = Some (NInt 200).
Proof.
  split; [ reflexivity | ].
  destruct (triggerEvent_onChange_scalar example_extern [] 0%nat UINT8_MAX false
              example_cell 3000 uint8_t (NInt 0) eq_refl)
    as (st1 & x & Hrun & Hx & Hs & _); try reflexivity.
  - discriminate.
  - injection Hx as <-. exists st1. split; [ exact Hrun | exact Hs ].
Defined.

Lemma triggerEvent_row_update_witness :
  vectorAt uint16_t 1000 (memory example_filled) = Some [NInt 5; NInt 6; NInt 9] /\
  (exists st1 l',
     triggerEvent example_extern [] 0%nat onChange 1 false example_filled =
       Some (callVarEvent example_extern [] 0%nat onChange 1 st1) /\
     vectorAt uint16_t 1000 (memory st1) = Some l' /\
     length l' = 3%nat /\
     l' !! 1%nat = Some (NInt 7)) /\
  valueRow (objects example_text_filled 0%nat) 0 = JNull /\
  triggerEvent example_extern [] 0%nat onChange 0 false example_text_filled = None.
Proof.
  split; [ reflexivity | ]. split.
  - destruct (triggerEvent_row_update example_extern [] 0%nat 1 false example_filled
                1000 uint16_t [NInt 5; NInt 6; NInt 9])
      as (st1 & l' & Hrun & Hvec & Hlen & Hrow & _); try reflexivity.
    + discriminate.
    + split; vm_compute; [ discriminate | reflexivity ].
    + discriminate.
    + exists st1, l'. split; [ exact Hrun | ]. split; [ exact Hvec | ].
      split; [ exact Hlen | exact Hrow ].
  - split; [ reflexivity | ].
    destruct (triggerEvent_row_update example_extern [] 0%nat 0 false example_text_filled
                2000 VectorString [NChars "a"; NChars "b"])
      as (_ & _ & Hnone);
      [ reflexivity | reflexivity | reflexivity | discriminate | reflexivity
      | split; vm_compute; [ discriminate | reflexivity ]
      | discriminate | reflexivity | exact Hnone ].
Defined.

Lemma triggerEvent_storage_untouched_witness :
  exists st' result,
    triggerEvent example_extern example_varEvents 0%nat onUI UINT8_MAX false example_stale =
      Some (st', result) /\
    result = false /\
    memory st' = memory example_stale.
Proof.
  destruct (triggerEvent_storage_untouched example_extern example_varEvents 0%nat onUI
              UINT8_MAX false example_stale)
    as (st' & result & Hrun & Hres & Hmem & _); try discriminate.
  exists st', result. split; [ exact Hrun | ]. split; [ exact Hres | ].
  apply Hmem. repeat constructor.
Defined.

Lemma loop20ms_strips_live_model_witness :
  cleanUpModelDone example_saved = true /\
  doWriteModel example_saved = true /\
  model (loop20ms example_extern false example_saved) =
    JArr [ JObj [ ("id", JStr "upTime"); ("type", JStr "text"); ("ro", JBool true);
                  ("fun", JInt 3); ("o", JInt 5) ] ].
Proof.
  split; [ reflexivity | ]. split; [ reflexivity | ].
  refine (proj1 (loop20ms_strips_live_model example_extern false example_saved
                   eq_refl eq_refl _)).
  vm_compute. reflexivity.
Defined.

Lemma findOptionsText_in_group_witness :
  exists st',
    findOptionsText example_extern example_onUI 0%nat 1 example_select =
      Some (st', "Panels", "32x8") /\
    optionsOf example_extern 0%nat example_select = JNull /\
    optionsOf example_extern 0%nat st' = JNull.
Proof.
  destruct (findOptionsText_in_group example_extern example_onUI 0%nat 1 example_select
              _ _ "Panels" "32x8" eq_refl)
    as (st' & group' & text' & Hrun & -> & -> & _ & _ & _ & _ & _ & Hclear).
  - reflexivity.
  - split; vm_compute; discriminate.
  - reflexivity.
  - exists st'. split; [ exact Hrun | ]. split; [ reflexivity | ].
    apply Hclear; [ reflexivity | ].
    intros inner [= <-]. apply (NoDup_singleton "options").
Defined.

Lemma addResetReasonsSelect_positions_witness :
  0 <= 12 <= UINT8_MAX /\
  findOptionsTextRec (addResetReasonsSelect (JArr [])) 12 None (mkLookup 0 None None) =
    (true, mkLookup 12 None (Some "SW restart (12)")).
Proof.
  split; [ split; vm_compute; discriminate | ].
  rewrite (addResetReasonsSelect_positions 12).
  - vm_compute. reflexivity.
  - split; vm_compute; discriminate.
Defined.

Lemma setOptions_clearOptions_witness :
  member (pidid example_extern (objects example_select 0%nat)) (responseObject example_select)
    = JNull /\
  optionsOf example_extern 0%nat (setOptions example_extern 0%nat example_select) = JArr [] /\
  optionsOf example_extern 0%nat
    (clearOptions example_extern 0%nat (setOptions example_extern 0%nat example_select))
    = JNull.
Proof.
  split; [ reflexivity | ].
  destruct (setOptions_clearOptions example_extern 0%nat example_select eq_refl)
    as (Hset & _ & Hclear).
  split; [ exact Hset | ]. apply Hclear. intros inner. discriminate.
Defined.

Lemma addRestartReasonsSelect_positions_witness :
  0 <= 3 <= UINT8_MAX /\
  findOptionsTextRec (addRestartReasonsSelect example_rst (JArr [])) 3 None
    (mkLookup 0 None None) =
    (true, mkLookup 3 None (Some "(3) SW restart by esp_restart()")).
Proof.
  split; [ split; vm_compute; discriminate | ].
  rewrite (addRestartReasonsSelect_positions example_rst 3).
  - vm_compute. reflexivity.
  - split; vm_compute; discriminate.
Defined.

Lemma sysTools_normal_startup_texts_witness :
  sysTools_normal_startup example_rst 3 = true /\
  (restartCode2Info example_rst 3 = "power-on event" \/
   restartCode2Info example_rst 3 = "SW restart by esp_restart()").
Proof.
  split; [ reflexivity | ].
  apply (sysTools_normal_startup_texts example_rst 3); [ | reflexivity ].
  apply (bool_decide_eq_true_1 _). vm_compute. reflexivity.
Defined.

Lemma cleanUpModel_terminal_sweep_witness :
  allVars (fun var => INT_MIN <? order example_extern var) example_model = true /\
  allVars confirmed (cleanUpModel example_extern false true false JNull example_model) = true /\
  ids (cleanUpModel example_extern false true false JNull example_model) = [JStr "declared"].
Proof.
  split; [ reflexivity | ].
  destruct (cleanUpModel_terminal_sweep example_extern false true JNull
              [ JObj [("id", JStr "declared"); ("o", JInt (-1))];
                JObj [("id", JStr "restored"); ("o", JInt 2)] ])
    as (_ & _ & _ & _ & _ & Hswept & _).
  split; [ exact (proj1 (Hswept eq_refl)) | reflexivity ].
Defined.

Lemma cleanUpModel_second_sweep_witness :
  ids (cleanUpModel example_extern false true false JNull example_model) = [JStr "declared"] /\
  cleanUpModel example_extern false true false JNull
    (cleanUpModel example_extern false true false JNull example_model) = JArr [].
Proof.
  split; [ reflexivity | ].
  apply (cleanUpModel_second_sweep example_extern JNull JNull
           [ JObj [("id", JStr "declared"); ("o", JInt (-1))];
             JObj [("id", JStr "restored"); ("o", JInt 2)] ]).
  repeat constructor.
Defined.
